(** * memcached_exporter: stats translation and collection

    A shallow embedding of [pkg/exporter/exporter.go].

    - A [*prometheus.Desc] held by the [Exporter] struct is identified with
      the struct field that holds it ([e.up], [e.commands], ...): [New]
      builds each field with its own [prometheus.NewDesc] call.
    - The channel [ch chan<- prometheus.Metric] is send-only.  A function
      that writes to it is a computation in [Sends]: its result together
      with the metrics it sent, in order.  A metric is what
      [prometheus.MustNewConstMetric] was called with; the check of the
      label values that the library makes there is not part of the model.
    - [float64] is Rocq's primitive binary64 [float].
    - [strconv.ParseFloat] belongs to Go's standard library; it is a
      parameter of the development ([ParseFloat], [None] standing for a
      non-nil [*strconv.NumError]).
    - A [map[string]string] record is a [gmap string string].  A map that the
      code only ranges over ([map[net.Addr]memcache.Stats], [t.Items],
      [t.Slabs], and the two tables of [parseStats]) is the list of its
      entries in the order the range visits them; for the two tables that
      is taken to be the order of the source.
    - [CollectServer] is the work of one goroutine of [Collect]; what the
      client answers in the cycle ([memcache.New], [c.Stats],
      [c.StatsSettings]) is a parameter.
    - Calls to the logger change neither the channel nor any returned
      value and are left out. *)

From Stdlib Require Import PrimFloat DecimalString ZArith Ascii.
From stdpp Require Import gmap strings list.

(** ** Descriptors: the [*prometheus.Desc] fields of [Exporter] *)

Module e.

Inductive Desc : Set :=
  | up | uptime | time | version | rusageUser | rusageSystem | bytesRead
  | bytesWritten | currentConnections | maxConnections | connectionsTotal
  | rejectedConnections | connsYieldedTotal | listenerDisabledTotal
  | currentBytes | limitBytes | commands | items | itemsTotal | evictions
  | reclaimed | lruCrawlerEnabled | lruCrawlerSleep | lruCrawlerMaxItems
  | lruMaintainerThread | lruHotPercent | lruWarmPercent | lruHotMaxAgeFactor
  | lruWarmMaxAgeFactor | lruCrawlerStarts | lruCrawlerReclaimed
  | lruCrawlerItemsChecked | lruCrawlerMovesToCold | lruCrawlerMovesToWarm
  | lruCrawlerMovesWithinLru | malloced | itemsNumber | itemsAge
  | itemsCrawlerReclaimed | itemsEvicted | itemsEvictedNonzero
  | itemsEvictedTime | itemsEvictedUnfetched | itemsExpiredUnfetched
  | itemsOutofmemory | itemsReclaimed | itemsTailrepairs | itemsMovesToCold
  | itemsMovesToWarm | itemsMovesWithinLru | itemsHot | itemsWarm | itemsCold
  | itemsTemporary | itemsAgeOldestHot | itemsAgeOldestWarm | itemsLruHits
  | slabsChunkSize | slabsChunksPerPage | slabsCurrentPages
  | slabsCurrentChunks | slabsChunksUsed | slabsChunksFree
  | slabsChunksFreeEnd | slabsMemRequested | slabsCommands
  | extstoreCompactLost | extstoreCompactRescues | extstoreCompactSkipped
  | extstorePageAllocs | extstorePageEvictions | extstorePageReclaims
  | extstorePagesFree | extstorePagesUsed | extstoreObjectsEvicted
  | extstoreObjectsRead | extstoreObjectsWritten | extstoreObjectsUsed
  | extstoreBytesEvicted | extstoreBytesWritten | extstoreBytesRead
  | extstoreBytesUsed | extstoreBytesLimit | extstoreBytesFragmented
  | extstoreIOQueueDepth | acceptingConnections.

Definition eq_dec (x y : Desc) : {x = y} + {x <> y}.
Proof. decide equality. Defined.

End e.

#[global] Instance Desc_eq_dec : EqDecision e.Desc := e.eq_dec.

(** ** Metrics, errors *)

Inductive ValueType : Set := CounterValue | GaugeValue.

(** What [prometheus.MustNewConstMetric] is called with. *)
Record Metric : Set := MustNewConstMetric {
  desc : e.Desc;
  valueType : ValueType;
  value : float;
  labelValues : list string
}.

Inductive error : Set :=
| errKeyNotFound                 (* var errKeyNotFound *)
| NumError (num : string)        (* the error of strconv.ParseFloat on num *)
| errParseBool                   (* errors.New("failed parse a bool value") *)
| errParseTimeval                (* errors.New("failed parse a timeval value") *)
| errTransport (msg : string).   (* an error of the memcache client *)

(** A Go [(float64, error)] result. *)
Inductive result : Set :=
| Ok (v : float)
| Err (err : error).

(** ** The send-only channel *)

Definition Sends (A : Type) : Type := A * list Metric.

#[global] Instance Sends_ret : MRet Sends := fun A a => (a, []).
#[global] Instance Sends_bind : MBind Sends :=
  fun A B k m => let r := k m.1 in (r.1, m.2 ++ r.2).

(** [ch <- m] *)
Definition send (m : Metric) : Sends unit := (tt, [m]).

(** The value a computation returns, and what it sent on the way. *)
Definition returned {A} (m : Sends A) : A := m.1.
Definition sent {A} (m : Sends A) : list Metric := m.2.

(** The arguments of a call are evaluated from left to right. *)
Fixpoint args {A} (calls : list (Sends A)) : Sends (list A) :=
  match calls with
  | [] => mret []
  | c :: calls => x ← c; xs ← args calls; mret (x :: xs)
  end.

(** [for _, x := range l { body }], the loop threading [acc]. *)
Fixpoint range {A B} (l : list A) (acc : B) (body : B -> A -> Sends B)
  : Sends B :=
  match l with
  | [] => mret acc
  | x :: l => acc ← body acc x; range l acc body
  end.

(** ** Go library functions *)

(** [m[key]] on a [map[string]string]: the zero value when absent. *)
Definition index (m : gmap string string) (key : string) : string :=
  default "" (m !! key).

(** [strings.Split(s, sep)] for a one-byte separator. *)
Fixpoint Split (s : string) (sep : ascii) : list string :=
  match s with
  | EmptyString => [EmptyString]
  | String c rest =>
      if Ascii.eqb c sep then EmptyString :: Split rest sep
      else match Split rest sep with
           | part :: parts => String c part :: parts
           | [] => [String c EmptyString]
           end
  end.

(** [strconv.Itoa] *)
Definition Itoa (i : Z) : string := NilZero.string_of_int (Z.to_int i).

(** [memcache.Stats] *)
Record Stats : Type := {
  Stats_ : gmap string string;
  Slabs : list (Z * gmap string string);
  Items : list (Z * gmap string string)
}.

Definition Addr : Set := string.

(** What a [*memcache.Client] answers in one cycle. *)
Record Client : Type := {
  c_Stats : list (Addr * Stats) * option error;
  c_StatsSettings : list (Addr * gmap string string) * option error
}.

(** ** A decimal reader for the examples

    [Sample.ParseFloat] reads an unsigned decimal integer literal the way
    [strconv.ParseFloat] does as long as the number is exactly representable
    (below 2^53); it is only used to run the development on concrete
    records. *)

Module Sample.

Definition digit (c : ascii) : option float :=
  let code := nat_of_ascii c in
  if (48 <=? code)%nat && (code <=? 57)%nat
  then Some (Nat.iter (code - 48) (fun d => d + 1)%float 0%float)
  else None.

Fixpoint digits (s : string) (acc : float) : option float :=
  match s with
  | EmptyString => Some acc
  | String c rest =>
      match digit c with
      | Some d => digits rest (acc * 10 + d)%float
      | None => None
      end
  end.

Definition ParseFloat (s : string) : option float :=
  match s with
  | EmptyString => None
  | _ => digits s 0%float
  end.

(** Records to run the translators on. *)

Definition stats : gmap string string :=
  <["cmd_set" := "120"]> (<["cas_hits" := "3"]> (<["cas_misses" := "2"]>
    (<["cas_badval" := "1"]> ∅))).

Definition slab : gmap string string :=
  <["cmd_set" := "10"]> (<["cas_hits" := "1"]> (<["cas_badval" := "1"]>
    (<["cas_misses" := "5"]> ∅))).

(** extstore fields, but no extstore_limit_maxbytes *)
Definition offload : gmap string string :=
  <["extstore_pages_free" := "7"]> (<["extstore_pages_used" := "3"]> stats).

Definition settings : gmap string string :=
  <["maxconns" := "1024"]> (<["lru_crawler" := "no"]>
    (<["lru_crawler_sleep" := "100"]> ∅)).

Definition rusage : gmap string string :=
  <["rusage_user" := "12.345678"]> (<["rusage_system" := "1.2.3"]> ∅).

Definition entry : Addr * Stats :=
  ("10.0.0.1:11211", {| Stats_ := stats; Slabs := []; Items := [] |}).

Definition offload_entry : Addr * Stats :=
  ("10.0.0.1:11211", {| Stats_ := offload; Slabs := []; Items := [] |}).


(** A client whose stats fetch fails and whose settings fetch succeeds. *)
Definition half_client : Client :=
  {| c_Stats := ([], Some (errTransport "i/o timeout"));
     c_StatsSettings := ([("10.0.0.1:11211", settings)], None) |}.


End Sample.

Section Exporter.

(** [strconv.ParseFloat(value, 64)]: [Some v] when the error is nil. *)
Variable ParseFloat : string -> option float.

(** *** Scalar parsers *)

Definition parse (stats : gmap string string) (key : string) : result :=
  match stats !! key with
  | None => Err errKeyNotFound
  | Some value =>
      match ParseFloat value with
      | None => Err (NumError value)
      | Some v => Ok v
      end
  end.

Definition parseBool (stats : gmap string string) (key : string) : result :=
  match stats !! key with
  | None => Err errKeyNotFound
  | Some value =>
      if String.eqb value "yes" then Ok 1%float
      else if String.eqb value "no" then Ok 0%float
      else Err errParseBool
  end.

Definition parseTimeval (stats : gmap string string) (key : string) : result :=
  match stats !! key with
  | None => Err errKeyNotFound
  | Some value =>
      match Split value "." with
      | [seconds; microseconds] =>
          match ParseFloat seconds with
          | None => Err errParseTimeval
          | Some seconds =>
              match ParseFloat microseconds with
              | None => Err errParseTimeval
              | Some microseconds =>
                  Ok (seconds + microseconds / (1000.0 * 1000.0))%float
              end
          end
      | _ => Err errParseTimeval       (* len(values) != 2 *)
      end
  end.

(** The loop of [sum], [s] being the running total. *)
Fixpoint sum_from (s : float) (stats : gmap string string)
    (keys : list string) : result :=
  match keys with
  | [] => Ok s
  | key :: keys =>
      match stats !! key with
      | None => Err errKeyNotFound
      | Some value =>
          match ParseFloat value with
          | None => Err (NumError value)
          | Some v => sum_from (s + v)%float stats keys
          end
      end
  end.

Definition sum (stats : gmap string string) (keys : list string) : result :=
  sum_from 0%float stats keys.

Fixpoint firstError (errors : list (option error)) : option error :=
  match errors with
  | [] => None
  | Some v :: _ => Some v
  | None :: errors => firstError errors
  end.

(** *** Field-to-metric binder *)

Definition extractValueAndNewMetric (desc : e.Desc) (valueType : ValueType)
    (f : gmap string string -> string -> result)
    (stats : gmap string string) (key : string) (labelValues : list string)
  : Sends (option error) :=
  match f stats key with
  | Err errKeyNotFound => mret None
  | Err err => mret (Some err)
  | Ok v => send (MustNewConstMetric desc valueType v labelValues);; mret None
  end.

Definition parseAndNewMetric desc valueType stats key labelValues :=
  extractValueAndNewMetric desc valueType parse stats key labelValues.

Definition parseBoolAndNewMetric desc valueType stats key labelValues :=
  extractValueAndNewMetric desc valueType parseBool stats key labelValues.

Definition parseTimevalAndNewMetric desc valueType stats key labelValues :=
  extractValueAndNewMetric desc valueType parseTimeval stats key labelValues.

(** [if err != nil { parseError = err }] *)
Definition record (err parseError : option error) : option error :=
  match err with
  | Some _ => err
  | None => parseError
  end.

(** *** Per-server stats translator *)

Definition itemsCounterMetrics : list (string * e.Desc) :=
  [ ("crawler_reclaimed", e.itemsCrawlerReclaimed);
    ("evicted", e.itemsEvicted);
    ("evicted_nonzero", e.itemsEvictedNonzero);
    ("evicted_time", e.itemsEvictedTime);
    ("evicted_unfetched", e.itemsEvictedUnfetched);
    ("expired_unfetched", e.itemsExpiredUnfetched);
    ("outofmemory", e.itemsOutofmemory);
    ("reclaimed", e.itemsReclaimed);
    ("tailrepairs", e.itemsTailrepairs);
    ("mem_requested", e.slabsMemRequested);
    ("moves_to_cold", e.itemsMovesToCold);
    ("moves_to_warm", e.itemsMovesToWarm);
    ("moves_within_lru", e.itemsMovesWithinLru) ].

Definition itemsGaugeMetrics : list (string * e.Desc) :=
  [ ("number_hot", e.itemsHot);
    ("number_warm", e.itemsWarm);
    ("number_cold", e.itemsCold);
    ("number_temp", e.itemsTemporary);
    ("age_hot", e.itemsAgeOldestHot);
    ("age_warm", e.itemsAgeOldestWarm) ].

Definition ops : list string :=
  ["get"; "delete"; "incr"; "decr"; "cas"; "touch"].

(** The derived "set" counter of one stats record, server level:
    [setCmd, err := parse(s, "cmd_set", ...)] and what follows it. *)
Definition parseStats_set (server : string) (s : gmap string string)
    (parseError : option error) : Sends (option error) :=
  match parse s "cmd_set" with
  | Ok setCmd =>
      match sum s ["cas_misses"; "cas_hits"; "cas_badval"] with
      | Ok cas =>
          send (MustNewConstMetric e.commands CounterValue (setCmd - cas)%float
                  ["set"; "hit"; server]);;
          mret parseError
      | Err casErr => mret (Some casErr)
      end
  | Err err => mret (Some err)
  end.

(** The extstore group: [if _, ok := s["extstore_limit_maxbytes"]; ok]. *)
Definition parseStats_extstore (server : string) (s : gmap string string)
    (parseError : option error) : Sends (option error) :=
  match s !! "extstore_limit_maxbytes" with
  | Some _ =>
      errs ← args [
        parseAndNewMetric e.extstoreCompactLost CounterValue s "extstore_compact_lost" [server];
        parseAndNewMetric e.extstoreCompactRescues CounterValue s "extstore_compact_rescues" [server];
        parseAndNewMetric e.extstoreCompactSkipped CounterValue s "extstore_compact_skipped" [server];
        parseAndNewMetric e.extstorePageAllocs CounterValue s "extstore_page_allocs" [server];
        parseAndNewMetric e.extstorePageEvictions CounterValue s "extstore_page_evictions" [server];
        parseAndNewMetric e.extstorePageReclaims CounterValue s "extstore_page_reclaims" [server];
        parseAndNewMetric e.extstorePagesFree GaugeValue s "extstore_pages_free" [server];
        parseAndNewMetric e.extstorePagesUsed GaugeValue s "extstore_pages_used" [server];
        parseAndNewMetric e.extstoreObjectsEvicted CounterValue s "extstore_objects_evicted" [server];
        parseAndNewMetric e.extstoreObjectsRead CounterValue s "extstore_objects_read" [server];
        parseAndNewMetric e.extstoreObjectsWritten CounterValue s "extstore_objects_written" [server];
        parseAndNewMetric e.extstoreObjectsUsed GaugeValue s "extstore_objects_used" [server];
        parseAndNewMetric e.extstoreBytesEvicted CounterValue s "extstore_bytes_evicted" [server];
        parseAndNewMetric e.extstoreBytesWritten CounterValue s "extstore_bytes_written" [server];
        parseAndNewMetric e.extstoreBytesRead CounterValue s "extstore_bytes_read" [server];
        parseAndNewMetric e.extstoreBytesUsed CounterValue s "extstore_bytes_used" [server];
        parseAndNewMetric e.extstoreBytesFragmented GaugeValue s "extstore_bytes_fragmented" [server];
        parseAndNewMetric e.extstoreBytesLimit GaugeValue s "extstore_limit_maxbytes" [server];
        parseAndNewMetric e.extstoreIOQueueDepth GaugeValue s "extstore_io_queue" [server] ];
      mret (record (firstError errs) parseError)
  | None => mret parseError
  end.

(** Body of [for slab, u := range t.Items]. *)
Definition parseStats_items (server : string) (parseError : option error)
    (entry : Z * gmap string string) : Sends (option error) :=
  let '(slab, u) := entry in
  let slab := Itoa slab in
  errs ← args [
    parseAndNewMetric e.itemsNumber GaugeValue u "number" [slab; server];
    parseAndNewMetric e.itemsAge GaugeValue u "age" [slab; server];
    parseAndNewMetric e.itemsLruHits CounterValue u "hits_to_hot" [slab; "hot"; server];
    parseAndNewMetric e.itemsLruHits CounterValue u "hits_to_warm" [slab; "warm"; server];
    parseAndNewMetric e.itemsLruHits CounterValue u "hits_to_cold" [slab; "cold"; server];
    parseAndNewMetric e.itemsLruHits CounterValue u "hits_to_temp" [slab; "temporary"; server] ];
  let parseError := record (firstError errs) parseError in
  parseError ← range itemsCounterMetrics parseError (λ parseError '(m, d),
    match u !! m with
    | None => mret parseError                                  (* continue *)
    | Some _ =>
        err ← parseAndNewMetric d CounterValue u m [slab; server];
        mret (record err parseError)
    end);
  range itemsGaugeMetrics parseError (λ parseError '(m, d),
    match u !! m with
    | None => mret parseError                                  (* continue *)
    | Some _ =>
        err ← parseAndNewMetric d GaugeValue u m [slab; server];
        mret (record err parseError)
    end).

(** The derived "set" counter of one slab:
    [slabSetCmd, err := parse(v, "cmd_set", ...)] and what follows it. *)
Definition parseStats_slabSet (server slab : string) (v : gmap string string)
    (parseError : option error) : Sends (option error) :=
  match parse v "cmd_set" with
  | Ok slabSetCmd =>
      match sum v ["cas_hits"; "cas_badval"] with
      | Ok slabCas =>
          send (MustNewConstMetric e.slabsCommands CounterValue
                  (slabSetCmd - slabCas)%float [slab; "set"; "hit"; server]);;
          mret parseError
      | Err slabCasErr => mret (Some slabCasErr)
      end
  | Err err => mret (Some err)
  end.

(** Body of [for slab, v := range t.Slabs]. *)
Definition parseStats_slabs (server : string) (parseError : option error)
    (entry : Z * gmap string string) : Sends (option error) :=
  let '(slab, v) := entry in
  let slab := Itoa slab in
  parseError ← range ops parseError (λ parseError op,
    err ← parseAndNewMetric e.slabsCommands CounterValue v (op +:+ "_hits")
            [slab; op; "hit"; server];
    mret (record err parseError));
  err ← parseAndNewMetric e.slabsCommands CounterValue v "cas_badval"
          [slab; "cas"; "badval"; server];
  let parseError := record err parseError in
  parseError ← parseStats_slabSet server slab v parseError;
  errs ← args [
    parseAndNewMetric e.slabsChunkSize GaugeValue v "chunk_size" [slab; server];
    parseAndNewMetric e.slabsChunksPerPage GaugeValue v "chunks_per_page" [slab; server];
    parseAndNewMetric e.slabsCurrentPages GaugeValue v "total_pages" [slab; server];
    parseAndNewMetric e.slabsCurrentChunks GaugeValue v "total_chunks" [slab; server];
    parseAndNewMetric e.slabsChunksUsed GaugeValue v "used_chunks" [slab; server];
    parseAndNewMetric e.slabsChunksFree GaugeValue v "free_chunks" [slab; server];
    parseAndNewMetric e.slabsChunksFreeEnd GaugeValue v "free_chunks_end" [slab; server];
    parseAndNewMetric e.slabsMemRequested GaugeValue v "mem_requested" [slab; server] ];
  mret (record (firstError errs) parseError).

(** Body of [for _, t := range stats]. *)
Definition parseStats_entry (server : string) (parseError : option error)
    (entry : Addr * Stats) : Sends (option error) :=
  let t := entry.2 in
  let s := Stats_ t in
  send (MustNewConstMetric e.version GaugeValue 1%float
          [index s "version"; server]);;
  parseError ← range ops parseError (λ parseError op,
    errs ← args [
      parseAndNewMetric e.commands CounterValue s (op +:+ "_hits") [op; "hit"; server];
      parseAndNewMetric e.commands CounterValue s (op +:+ "_misses") [op; "miss"; server] ];
    mret (record (firstError errs) parseError));
  errs ← args [
    parseAndNewMetric e.uptime CounterValue s "uptime" [server];
    parseAndNewMetric e.time GaugeValue s "time" [server];
    parseAndNewMetric e.commands CounterValue s "cas_badval" ["cas"; "badval"; server];
    parseAndNewMetric e.commands CounterValue s "cmd_flush" ["flush"; "hit"; server] ];
  let parseError := record (firstError errs) parseError in
  parseError ← parseStats_set server s parseError;
  parseError ← parseStats_extstore server s parseError;
  errs ← args [
    parseTimevalAndNewMetric e.rusageUser CounterValue s "rusage_user" [server];
    parseTimevalAndNewMetric e.rusageSystem CounterValue s "rusage_system" [server];
    parseAndNewMetric e.currentBytes GaugeValue s "bytes" [server];
    parseAndNewMetric e.limitBytes GaugeValue s "limit_maxbytes" [server];
    parseAndNewMetric e.items GaugeValue s "curr_items" [server];
    parseAndNewMetric e.itemsTotal CounterValue s "total_items" [server];
    parseAndNewMetric e.bytesRead CounterValue s "bytes_read" [server];
    parseAndNewMetric e.bytesWritten CounterValue s "bytes_written" [server];
    parseAndNewMetric e.currentConnections GaugeValue s "curr_connections" [server];
    parseAndNewMetric e.connectionsTotal CounterValue s "total_connections" [server];
    parseAndNewMetric e.rejectedConnections CounterValue s "rejected_connections" [server];
    parseAndNewMetric e.connsYieldedTotal CounterValue s "conn_yields" [server];
    parseAndNewMetric e.listenerDisabledTotal CounterValue s "listen_disabled_num" [server];
    parseAndNewMetric e.evictions CounterValue s "evictions" [server];
    parseAndNewMetric e.reclaimed CounterValue s "reclaimed" [server];
    parseAndNewMetric e.lruCrawlerStarts CounterValue s "lru_crawler_starts" [server];
    parseAndNewMetric e.lruCrawlerItemsChecked CounterValue s "crawler_items_checked" [server];
    parseAndNewMetric e.lruCrawlerReclaimed CounterValue s "crawler_reclaimed" [server];
    parseAndNewMetric e.lruCrawlerMovesToCold CounterValue s "moves_to_cold" [server];
    parseAndNewMetric e.lruCrawlerMovesToWarm CounterValue s "moves_to_warm" [server];
    parseAndNewMetric e.lruCrawlerMovesWithinLru CounterValue s "moves_within_lru" [server];
    parseAndNewMetric e.malloced GaugeValue s "total_malloced" [server];
    parseAndNewMetric e.acceptingConnections GaugeValue s "accepting_conns" [server] ];
  let parseError := record (firstError errs) parseError in
  parseError ← range (Items t) parseError (parseStats_items server);
  range (Slabs t) parseError (parseStats_slabs server).

Definition parseStats (stats : list (Addr * Stats)) (server : string)
  : Sends (option error) :=
  range stats None (parseStats_entry server).

(** *** Settings translator *)

(** Body of [for _, settings := range statsSettings]. *)
Definition parseStatsSettings_entry (server : string)
    (parseError : option error) (entry : Addr * gmap string string)
  : Sends (option error) :=
  let settings := entry.2 in
  err ← parseAndNewMetric e.maxConnections GaugeValue settings "maxconns" [server];
  let parseError := record err parseError in
  if match settings !! "lru_crawler" with           (* ok && v == "yes" *)
     | Some v => String.eqb v "yes"
     | None => false
     end
  then
      errs ← args [
        parseBoolAndNewMetric e.lruCrawlerEnabled GaugeValue settings "lru_crawler" [server];
        parseAndNewMetric e.lruCrawlerSleep GaugeValue settings "lru_crawler_sleep" [server];
        parseAndNewMetric e.lruCrawlerMaxItems GaugeValue settings "lru_crawler_tocrawl" [server];
        parseBoolAndNewMetric e.lruMaintainerThread GaugeValue settings "lru_maintainer_thread" [server];
        parseAndNewMetric e.lruHotPercent GaugeValue settings "hot_lru_pct" [server];
        parseAndNewMetric e.lruWarmPercent GaugeValue settings "warm_lru_pct" [server];
        parseAndNewMetric e.lruHotMaxAgeFactor GaugeValue settings "hot_max_factor" [server];
        parseAndNewMetric e.lruWarmMaxAgeFactor GaugeValue settings "warm_max_factor" [server] ];
      mret (record (firstError errs) parseError)
  else mret parseError.

Definition parseStatsSettings (statsSettings : list (Addr * gmap string string))
    (server : string) : Sends (option error) :=
  range statsSettings None (parseStatsSettings_entry server).

(** *** Multi-server collector *)

(** [memcache.New(server)]: the client, or the error. *)
Variable memcache_New : string -> Client + error.

Definition CollectServer (server : string) : Sends unit :=
  match memcache_New server with
  | inr _ =>
      send (MustNewConstMetric e.up GaugeValue 0%float [server])
  | inl c =>
      let up := 1%float in
      let '(stats, err) := c_Stats c in
      let up := match err with Some _ => 0%float | None => up end in
      let '(statsSettings, err) := c_StatsSettings c in
      let up := match err with Some _ => 0%float | None => up end in
      err ← parseStats stats server;
      let up := match err with Some _ => 0%float | None => up end in
      err ← parseStatsSettings statsSettings server;
      let up := match err with Some _ => 0%float | None => up end in
      send (MustNewConstMetric e.up GaugeValue up [server])
  end.

(** *** Describe *)

Definition Describe : list e.Desc :=
  [
    e.up; e.uptime; e.time; e.version; e.rusageUser; e.rusageSystem;
    e.bytesRead; e.bytesWritten; e.currentConnections; e.maxConnections;
    e.connectionsTotal; e.rejectedConnections; e.connsYieldedTotal;
    e.listenerDisabledTotal; e.currentBytes; e.limitBytes; e.commands;
    e.items; e.itemsTotal; e.evictions; e.reclaimed; e.lruCrawlerEnabled;
    e.lruCrawlerSleep; e.lruCrawlerMaxItems; e.lruMaintainerThread;
    e.lruHotPercent; e.lruWarmPercent; e.lruHotMaxAgeFactor;
    e.lruWarmMaxAgeFactor; e.lruCrawlerStarts; e.lruCrawlerReclaimed;
    e.lruCrawlerItemsChecked; e.lruCrawlerMovesToCold;
    e.lruCrawlerMovesToWarm; e.lruCrawlerMovesWithinLru; e.itemsLruHits;
    e.malloced; e.itemsNumber; e.itemsAge; e.itemsCrawlerReclaimed;
    e.itemsEvicted; e.itemsEvictedNonzero; e.itemsEvictedTime;
    e.itemsEvictedUnfetched; e.itemsExpiredUnfetched; e.itemsOutofmemory;
    e.itemsReclaimed; e.itemsTailrepairs; e.itemsExpiredUnfetched;
    e.itemsMovesToCold; e.itemsMovesToWarm; e.itemsMovesWithinLru; e.itemsHot;
    e.itemsWarm; e.itemsCold; e.itemsTemporary; e.itemsAgeOldestHot;
    e.itemsAgeOldestWarm; e.slabsChunkSize; e.slabsChunksPerPage;
    e.slabsCurrentPages; e.slabsCurrentChunks; e.slabsChunksUsed;
    e.slabsChunksFree; e.slabsChunksFreeEnd; e.slabsMemRequested;
    e.slabsCommands; e.extstoreCompactLost; e.extstoreCompactRescues;
    e.extstoreCompactSkipped; e.extstorePageAllocs; e.extstorePageEvictions;
    e.extstorePageReclaims; e.extstorePagesFree; e.extstorePagesUsed;
    e.extstoreObjectsEvicted; e.extstoreObjectsRead; e.extstoreObjectsWritten;
    e.extstoreObjectsUsed; e.extstoreBytesEvicted; e.extstoreBytesWritten;
    e.extstoreBytesRead; e.extstoreBytesUsed; e.extstoreBytesFragmented;
    e.extstoreBytesLimit; e.extstoreIOQueueDepth; e.acceptingConnections ].

(** ** Classifying what was sent *)

(** The reachability gauge. *)
Definition isUp (m : Metric) : bool :=
  match desc m with e.up => true | _ => false end.

Definition isVersion (m : Metric) : bool :=
  match desc m with e.version => true | _ => false end.

(** The offload-storage (extstore) family. *)
Definition isExtstore (m : Metric) : bool :=
  match desc m with
  | e.extstoreCompactLost | e.extstoreCompactRescues
  | e.extstoreCompactSkipped | e.extstorePageAllocs
  | e.extstorePageEvictions | e.extstorePageReclaims | e.extstorePagesFree
  | e.extstorePagesUsed | e.extstoreObjectsEvicted | e.extstoreObjectsRead
  | e.extstoreObjectsWritten | e.extstoreObjectsUsed | e.extstoreBytesEvicted
  | e.extstoreBytesWritten | e.extstoreBytesRead | e.extstoreBytesUsed
  | e.extstoreBytesLimit | e.extstoreBytesFragmented
  | e.extstoreIOQueueDepth => true
  | _ => false
  end.

(** A server-level commands observation with command "set", status "hit"
    ([e.commands] has the labels command, status, server). *)
Definition isSet (m : Metric) : bool :=
  match desc m, labelValues m with
  | e.commands, [command; status; _] =>
      String.eqb command "set" && String.eqb status "hit"
  | _, _ => false
  end.

(** A slab-level commands observation with command "set", status "hit"
    ([e.slabsCommands] has the labels slab, command, status, server). *)
Definition isSlabSet (m : Metric) : bool :=
  match desc m, labelValues m with
  | e.slabsCommands, [_; command; status; _] =>
      String.eqb command "set" && String.eqb status "hit"
  | _, _ => false
  end.

(** The LRU-crawler tuning gauges read from the settings record. *)
Definition isCrawlerSetting (m : Metric) : bool :=
  match desc m with
  | e.lruCrawlerEnabled | e.lruCrawlerSleep | e.lruCrawlerMaxItems
  | e.lruMaintainerThread | e.lruHotPercent | e.lruWarmPercent
  | e.lruHotMaxAgeFactor | e.lruWarmMaxAgeFactor => true
  | _ => false
  end.

(** Every metric a computation sends satisfies [P]. *)
Definition sends_only {A} (P : Metric -> Prop) (m : Sends A) : Prop :=
  Forall P (sent m).


(** The number of separators in a string. *)
Fixpoint count_sep (s : string) (sep : ascii) : nat :=
  match s with
  | EmptyString => 0
  | String c rest => (if Ascii.eqb c sep then 1 else 0) + count_sep rest sep
  end.

Create HintDb translators.
#[local] Hint Unfold parseStats parseStats_entry parseStats_set
  parseStats_extstore parseStats_items parseStats_slabSet parseStats_slabs
  parseStatsSettings parseStatsSettings_entry
  parseAndNewMetric parseBoolAndNewMetric parseTimevalAndNewMetric
  itemsCounterMetrics itemsGaugeMetrics ops : translators.

(** [key] is present in [stats] with a value [strconv.ParseFloat] reads. *)
Definition numeric (stats : gmap string string) (key : string)
  : option float :=
  match stats !! key with
  | Some value => ParseFloat value
  | None => None
  end.

(** The binder calls of the extstore group. *)
Definition extstoreGroup : list (e.Desc * ValueType * string) :=
  [ (e.extstoreCompactLost, CounterValue, "extstore_compact_lost");
    (e.extstoreCompactRescues, CounterValue, "extstore_compact_rescues");
    (e.extstoreCompactSkipped, CounterValue, "extstore_compact_skipped");
    (e.extstorePageAllocs, CounterValue, "extstore_page_allocs");
    (e.extstorePageEvictions, CounterValue, "extstore_page_evictions");
    (e.extstorePageReclaims, CounterValue, "extstore_page_reclaims");
    (e.extstorePagesFree, GaugeValue, "extstore_pages_free");
    (e.extstorePagesUsed, GaugeValue, "extstore_pages_used");
    (e.extstoreObjectsEvicted, CounterValue, "extstore_objects_evicted");
    (e.extstoreObjectsRead, CounterValue, "extstore_objects_read");
    (e.extstoreObjectsWritten, CounterValue, "extstore_objects_written");
    (e.extstoreObjectsUsed, GaugeValue, "extstore_objects_used");
    (e.extstoreBytesEvicted, CounterValue, "extstore_bytes_evicted");
    (e.extstoreBytesWritten, CounterValue, "extstore_bytes_written");
    (e.extstoreBytesRead, CounterValue, "extstore_bytes_read");
    (e.extstoreBytesUsed, CounterValue, "extstore_bytes_used");
    (e.extstoreBytesFragmented, GaugeValue, "extstore_bytes_fragmented");
    (e.extstoreBytesLimit, GaugeValue, "extstore_limit_maxbytes");
    (e.extstoreIOQueueDepth, GaugeValue, "extstore_io_queue") ].




Definition isNil (err : option error) : bool :=
  match err with
  | None => true
  | Some _ => false
  end.

(** The client answered both fetches without error and both translators
    returned nil. *)
Definition healthy (c : Client) (server : string) : bool :=
  isNil (c_Stats c).2 && isNil (c_StatsSettings c).2 &&
  isNil (returned (parseStats (c_Stats c).1 server)) &&
  isNil (returned (parseStatsSettings (c_StatsSettings c).1 server)).

(** ** The descriptors built by [New] *)

Definition Namespace : string := "memcached".
Definition subsystemLruCrawler : string := "lru_crawler".
Definition subsystemSlab : string := "slab".

(** [prometheus.BuildFQName]: the non-empty parts joined by "_"; empty when
    the name is empty. *)
Definition BuildFQName (namespace subsystem name : string) : string :=
  if String.eqb name "" then ""
  else if negb (String.eqb namespace "") && negb (String.eqb subsystem "")
  then namespace +:+ "_" +:+ subsystem +:+ "_" +:+ name
  else if negb (String.eqb namespace "") then namespace +:+ "_" +:+ name
  else if negb (String.eqb subsystem "") then subsystem +:+ "_" +:+ name
  else name.

(** What [prometheus.NewDesc] is called with (the constant labels are nil
    throughout). *)
Record Desc : Set := NewDesc {
  fqName : string;
  help : string;
  variableLabels : list string
}.

(** The descriptor that the struct literal of [New] puts in each field. *)
Definition New_desc (field : e.Desc) : Desc :=
  match field with
  | e.up =>
      NewDesc (BuildFQName Namespace "" "up")
        "Could the memcached server be reached."
        ["server"]
  | e.uptime =>
      NewDesc (BuildFQName Namespace "" "uptime_seconds")
        "Number of seconds since the server started."
        ["server"]
  | e.time =>
      NewDesc (BuildFQName Namespace "" "time_seconds")
        "current UNIX time according to the server."
        ["server"]
  | e.version =>
      NewDesc (BuildFQName Namespace "" "version")
        "The version of this memcached server."
        ["version"; "server"]
  | e.rusageUser =>
      NewDesc (BuildFQName Namespace "" "process_user_cpu_seconds_total")
        "Accumulated user time for this process."
        ["server"]
  | e.rusageSystem =>
      NewDesc (BuildFQName Namespace "" "process_system_cpu_seconds_total")
        "Accumulated system time for this process."
        ["server"]
  | e.bytesRead =>
      NewDesc (BuildFQName Namespace "" "read_bytes_total")
        "Total number of bytes read by this server from network."
        ["server"]
  | e.bytesWritten =>
      NewDesc (BuildFQName Namespace "" "written_bytes_total")
        "Total number of bytes sent by this server to network."
        ["server"]
  | e.currentConnections =>
      NewDesc (BuildFQName Namespace "" "current_connections")
        "Current number of open connections."
        ["server"]
  | e.maxConnections =>
      NewDesc (BuildFQName Namespace "" "max_connections")
        "Maximum number of clients allowed."
        ["server"]
  | e.connectionsTotal =>
      NewDesc (BuildFQName Namespace "" "connections_total")
        "Total number of connections opened since the server started running."
        ["server"]
  | e.rejectedConnections =>
      NewDesc (BuildFQName Namespace "" "connections_rejected_total")
        "Total number of connections rejected due to hitting the memcached's -c limit in maxconns_fast mode."
        ["server"]
  | e.connsYieldedTotal =>
      NewDesc (BuildFQName Namespace "" "connections_yielded_total")
        "Total number of connections yielded running due to hitting the memcached's -R limit."
        ["server"]
  | e.listenerDisabledTotal =>
      NewDesc (BuildFQName Namespace "" "connections_listener_disabled_total")
        "Number of times that memcached has hit its connections limit and disabled its listener."
        ["server"]
  | e.currentBytes =>
      NewDesc (BuildFQName Namespace "" "current_bytes")
        "Current number of bytes used to store items."
        ["server"]
  | e.limitBytes =>
      NewDesc (BuildFQName Namespace "" "limit_bytes")
        "Number of bytes this server is allowed to use for storage."
        ["server"]
  | e.commands =>
      NewDesc (BuildFQName Namespace "" "commands_total")
        "Total number of all requests broken down by command (get, set, etc.) and status."
        ["command"; "status"; "server"]
  | e.items =>
      NewDesc (BuildFQName Namespace "" "current_items")
        "Current number of items stored by this instance."
        ["server"]
  | e.itemsTotal =>
      NewDesc (BuildFQName Namespace "" "items_total")
        "Total number of items stored during the life of this instance."
        ["server"]
  | e.evictions =>
      NewDesc (BuildFQName Namespace "" "items_evicted_total")
        "Total number of valid items removed from cache to free memory for new items."
        ["server"]
  | e.reclaimed =>
      NewDesc (BuildFQName Namespace "" "items_reclaimed_total")
        "Total number of times an entry was stored using memory from an expired entry."
        ["server"]
  | e.lruCrawlerEnabled =>
      NewDesc (BuildFQName Namespace subsystemLruCrawler "enabled")
        "Whether the LRU crawler is enabled."
        ["server"]
  | e.lruCrawlerSleep =>
      NewDesc (BuildFQName Namespace subsystemLruCrawler "sleep")
        "Microseconds to sleep between LRU crawls."
        ["server"]
  | e.lruCrawlerMaxItems =>
      NewDesc (BuildFQName Namespace subsystemLruCrawler "to_crawl")
        "Max items to crawl per slab per run."
        ["server"]
  | e.lruMaintainerThread =>
      NewDesc (BuildFQName Namespace subsystemLruCrawler "maintainer_thread")
        "Split LRU mode and background threads."
        ["server"]
  | e.lruHotPercent =>
      NewDesc (BuildFQName Namespace subsystemLruCrawler "hot_percent")
        "Percent of slab memory reserved for HOT LRU."
        ["server"]
  | e.lruWarmPercent =>
      NewDesc (BuildFQName Namespace subsystemLruCrawler "warm_percent")
        "Percent of slab memory reserved for WARM LRU."
        ["server"]
  | e.lruHotMaxAgeFactor =>
      NewDesc (BuildFQName Namespace subsystemLruCrawler "hot_max_factor")
        "Set idle age of HOT LRU to COLD age * this"
        ["server"]
  | e.lruWarmMaxAgeFactor =>
      NewDesc (BuildFQName Namespace subsystemLruCrawler "warm_max_factor")
        "Set idle age of WARM LRU to COLD age * this"
        ["server"]
  | e.lruCrawlerStarts =>
      NewDesc (BuildFQName Namespace subsystemLruCrawler "starts_total")
        "Times an LRU crawler was started."
        ["server"]
  | e.lruCrawlerReclaimed =>
      NewDesc (BuildFQName Namespace subsystemLruCrawler "reclaimed_total")
        "Total items freed by LRU Crawler."
        ["server"]
  | e.lruCrawlerItemsChecked =>
      NewDesc (BuildFQName Namespace subsystemLruCrawler "items_checked_total")
        "Total items examined by LRU Crawler."
        ["server"]
  | e.lruCrawlerMovesToCold =>
      NewDesc (BuildFQName Namespace subsystemLruCrawler "moves_to_cold_total")
        "Total number of items moved from HOT/WARM to COLD LRU's."
        ["server"]
  | e.lruCrawlerMovesToWarm =>
      NewDesc (BuildFQName Namespace subsystemLruCrawler "moves_to_warm_total")
        "Total number of items moved from COLD to WARM LRU."
        ["server"]
  | e.lruCrawlerMovesWithinLru =>
      NewDesc (BuildFQName Namespace subsystemLruCrawler "moves_within_lru_total")
        "Total number of items reshuffled within HOT or WARM LRU's."
        ["server"]
  | e.malloced =>
      NewDesc (BuildFQName Namespace "" "malloced_bytes")
        "Number of bytes of memory allocated to slab pages."
        ["server"]
  | e.itemsNumber =>
      NewDesc (BuildFQName Namespace subsystemSlab "current_items")
        "Number of items currently stored in this slab class."
        ["slab"; "server"]
  | e.itemsAge =>
      NewDesc (BuildFQName Namespace subsystemSlab "items_age_seconds")
        "Number of seconds the oldest item has been in the slab class."
        ["slab"; "server"]
  | e.itemsCrawlerReclaimed =>
      NewDesc (BuildFQName Namespace subsystemSlab "items_crawler_reclaimed_total")
        "Number of items freed by the LRU Crawler."
        ["slab"; "server"]
  | e.itemsEvicted =>
      NewDesc (BuildFQName Namespace subsystemSlab "items_evicted_total")
        "Total number of times an item had to be evicted from the LRU before it expired."
        ["slab"; "server"]
  | e.itemsEvictedNonzero =>
      NewDesc (BuildFQName Namespace subsystemSlab "items_evicted_nonzero_total")
        "Total number of times an item which had an explicit expire time set had to be evicted from the LRU before it expired."
        ["slab"; "server"]
  | e.itemsEvictedTime =>
      NewDesc (BuildFQName Namespace subsystemSlab "items_evicted_time_seconds")
        "Seconds since the last access for the most recent item evicted from this class."
        ["slab"; "server"]
  | e.itemsEvictedUnfetched =>
      NewDesc (BuildFQName Namespace subsystemSlab "items_evicted_unfetched_total")
        "Total nmber of items evicted and never fetched."
        ["slab"; "server"]
  | e.itemsExpiredUnfetched =>
      NewDesc (BuildFQName Namespace subsystemSlab "items_expired_unfetched_total")
        "Total number of valid items evicted from the LRU which were never touched after being set."
        ["slab"; "server"]
  | e.itemsOutofmemory =>
      NewDesc (BuildFQName Namespace subsystemSlab "items_outofmemory_total")
        "Total number of items for this slab class that have triggered an out of memory error."
        ["slab"; "server"]
  | e.itemsReclaimed =>
      NewDesc (BuildFQName Namespace subsystemSlab "items_reclaimed_total")
        "Total number of items reclaimed."
        ["slab"; "server"]
  | e.itemsTailrepairs =>
      NewDesc (BuildFQName Namespace subsystemSlab "items_tailrepairs_total")
        "Total number of times the entries for a particular ID need repairing."
        ["slab"; "server"]
  | e.itemsMovesToCold =>
      NewDesc (BuildFQName Namespace subsystemSlab "items_moves_to_cold")
        "Number of items moved from HOT or WARM into COLD."
        ["slab"; "server"]
  | e.itemsMovesToWarm =>
      NewDesc (BuildFQName Namespace subsystemSlab "items_moves_to_warm")
        "Number of items moves from COLD into WARM."
        ["slab"; "server"]
  | e.itemsMovesWithinLru =>
      NewDesc (BuildFQName Namespace subsystemSlab "items_moves_within_lru")
        "Number of times active items were bumped within HOT or WARM."
        ["slab"; "server"]
  | e.itemsHot =>
      NewDesc (BuildFQName Namespace subsystemSlab "hot_items")
        "Number of items presently stored in the HOT LRU."
        ["slab"; "server"]
  | e.itemsWarm =>
      NewDesc (BuildFQName Namespace subsystemSlab "warm_items")
        "Number of items presently stored in the WARM LRU."
        ["slab"; "server"]
  | e.itemsCold =>
      NewDesc (BuildFQName Namespace subsystemSlab "cold_items")
        "Number of items presently stored in the COLD LRU."
        ["slab"; "server"]
  | e.itemsTemporary =>
      NewDesc (BuildFQName Namespace subsystemSlab "temporary_items")
        "Number of items presently stored in the TEMPORARY LRU."
        ["slab"; "server"]
  | e.itemsAgeOldestHot =>
      NewDesc (BuildFQName Namespace subsystemSlab "hot_age_seconds")
        "Age of the oldest item in HOT LRU."
        ["slab"; "server"]
  | e.itemsAgeOldestWarm =>
      NewDesc (BuildFQName Namespace subsystemSlab "warm_age_seconds")
        "Age of the oldest item in HOT LRU."
        ["slab"; "server"]
  | e.itemsLruHits =>
      NewDesc (BuildFQName Namespace subsystemSlab "lru_hits_total")
        "Number of get_hits to the LRU."
        ["slab"; "lru"; "server"]
  | e.slabsChunkSize =>
      NewDesc (BuildFQName Namespace subsystemSlab "chunk_size_bytes")
        "Number of bytes allocated to each chunk within this slab class."
        ["slab"; "server"]
  | e.slabsChunksPerPage =>
      NewDesc (BuildFQName Namespace subsystemSlab "chunks_per_page")
        "Number of chunks within a single page for this slab class."
        ["slab"; "server"]
  | e.slabsCurrentPages =>
      NewDesc (BuildFQName Namespace subsystemSlab "current_pages")
        "Number of pages allocated to this slab class."
        ["slab"; "server"]
  | e.slabsCurrentChunks =>
      NewDesc (BuildFQName Namespace subsystemSlab "current_chunks")
        "Number of chunks allocated to this slab class."
        ["slab"; "server"]
  | e.slabsChunksUsed =>
      NewDesc (BuildFQName Namespace subsystemSlab "chunks_used")
        "Number of chunks allocated to an item."
        ["slab"; "server"]
  | e.slabsChunksFree =>
      NewDesc (BuildFQName Namespace subsystemSlab "chunks_free")
        "Number of chunks not yet allocated items."
        ["slab"; "server"]
  | e.slabsChunksFreeEnd =>
      NewDesc (BuildFQName Namespace subsystemSlab "chunks_free_end")
        "Number of free chunks at the end of the last allocated page."
        ["slab"; "server"]
  | e.slabsMemRequested =>
      NewDesc (BuildFQName Namespace subsystemSlab "mem_requested_bytes")
        "Number of bytes of memory actual items take up within a slab."
        ["slab"; "server"]
  | e.slabsCommands =>
      NewDesc (BuildFQName Namespace subsystemSlab "commands_total")
        "Total number of all requests broken down by command (get, set, etc.) and status per slab."
        ["slab"; "command"; "status"; "server"]
  | e.extstoreCompactLost =>
      NewDesc (BuildFQName Namespace "" "extstore_compact_lost_total")
        "Total number of items lost because they were locked during extstore compaction."
        ["server"]
  | e.extstoreCompactRescues =>
      NewDesc (BuildFQName Namespace "" "extstore_compact_rescued_total")
        "Total number of items moved to a new page during extstore compaction,"
        ["server"]
  | e.extstoreCompactSkipped =>
      NewDesc (BuildFQName Namespace "" "extstore_compact_skipped_total")
        "Total number of items dropped due to inactivity during extstore compaction."
        ["server"]
  | e.extstorePageAllocs =>
      NewDesc (BuildFQName Namespace "" "extstore_pages_allocated_total")
        "Total number of times a page was allocated in extstore."
        ["server"]
  | e.extstorePageEvictions =>
      NewDesc (BuildFQName Namespace "" "extstore_pages_evicted_total")
        "Total number of times a page was evicted from extstore."
        ["server"]
  | e.extstorePageReclaims =>
      NewDesc (BuildFQName Namespace "" "extstore_pages_reclaimed_total")
        "Total number of times an empty extstore page was freed."
        ["server"]
  | e.extstorePagesFree =>
      NewDesc (BuildFQName Namespace "" "extstore_pages_free")
        "Number of extstore pages not yet containing any items."
        ["server"]
  | e.extstorePagesUsed =>
      NewDesc (BuildFQName Namespace "" "extstore_pages_used")
        "Number of extstore pages containing at least one item."
        ["server"]
  | e.extstoreObjectsEvicted =>
      NewDesc (BuildFQName Namespace "" "extstore_objects_evicted_total")
        "Total number of items evicted from extstore to free up space."
        ["server"]
  | e.extstoreObjectsRead =>
      NewDesc (BuildFQName Namespace "" "extstore_objects_read_total")
        "Total number of items read from extstore."
        ["server"]
  | e.extstoreObjectsWritten =>
      NewDesc (BuildFQName Namespace "" "extstore_objects_written_total")
        "Total number of items written to extstore."
        ["server"]
  | e.extstoreObjectsUsed =>
      NewDesc (BuildFQName Namespace "" "extstore_objects_used")
        "Number of items stored in extstore."
        ["server"]
  | e.extstoreBytesEvicted =>
      NewDesc (BuildFQName Namespace "" "extstore_bytes_evicted_total")
        "Total number of bytes evicted from extstore to free up space."
        ["server"]
  | e.extstoreBytesWritten =>
      NewDesc (BuildFQName Namespace "" "extstore_bytes_written_total")
        "Total number of bytes written to extstore."
        ["server"]
  | e.extstoreBytesRead =>
      NewDesc (BuildFQName Namespace "" "extstore_bytes_read_total")
        "Total number of bytes read from extstore."
        ["server"]
  | e.extstoreBytesUsed =>
      NewDesc (BuildFQName Namespace "" "extstore_bytes_used")
        "Current number of bytes used to store items in extstore."
        ["server"]
  | e.extstoreBytesFragmented =>
      NewDesc (BuildFQName Namespace "" "extstore_bytes_fragmented")
        "Current number of bytes in extstore pages allocated but not used to store an object."
        ["server"]
  | e.extstoreBytesLimit =>
      NewDesc (BuildFQName Namespace "" "extstore_bytes_limit")
        "Number of bytes of external storage allocated for this server."
        ["server"]
  | e.extstoreIOQueueDepth =>
      NewDesc (BuildFQName Namespace "" "extstore_io_queue_depth")
        "Number of items in the I/O queue waiting to be processed."
        ["server"]
  | e.acceptingConnections =>
      NewDesc (BuildFQName Namespace "" "accepting_connections")
        "The Memcached server is currently accepting new connections."
        ["server"]
  end.

(** The fields of [Exporter] that hold a descriptor, in the order of the
    struct. *)
Definition fields : list e.Desc :=
  [
    e.up; e.uptime; e.time; e.version; e.rusageUser; e.rusageSystem;
    e.bytesRead; e.bytesWritten; e.currentConnections; e.maxConnections;
    e.connectionsTotal; e.rejectedConnections; e.connsYieldedTotal;
    e.listenerDisabledTotal; e.currentBytes; e.limitBytes; e.commands;
    e.items; e.itemsTotal; e.evictions; e.reclaimed; e.lruCrawlerEnabled;
    e.lruCrawlerSleep; e.lruCrawlerMaxItems; e.lruMaintainerThread;
    e.lruHotPercent; e.lruWarmPercent; e.lruHotMaxAgeFactor;
    e.lruWarmMaxAgeFactor; e.lruCrawlerStarts; e.lruCrawlerReclaimed;
    e.lruCrawlerItemsChecked; e.lruCrawlerMovesToCold;
    e.lruCrawlerMovesToWarm; e.lruCrawlerMovesWithinLru; e.malloced;
    e.itemsNumber; e.itemsAge; e.itemsCrawlerReclaimed; e.itemsEvicted;
    e.itemsEvictedNonzero; e.itemsEvictedTime; e.itemsEvictedUnfetched;
    e.itemsExpiredUnfetched; e.itemsOutofmemory; e.itemsReclaimed;
    e.itemsTailrepairs; e.itemsMovesToCold; e.itemsMovesToWarm;
    e.itemsMovesWithinLru; e.itemsHot; e.itemsWarm; e.itemsCold;
    e.itemsTemporary; e.itemsAgeOldestHot; e.itemsAgeOldestWarm;
    e.itemsLruHits; e.slabsChunkSize; e.slabsChunksPerPage;
    e.slabsCurrentPages; e.slabsCurrentChunks; e.slabsChunksUsed;
    e.slabsChunksFree; e.slabsChunksFreeEnd; e.slabsMemRequested;
    e.slabsCommands; e.extstoreCompactLost; e.extstoreCompactRescues;
    e.extstoreCompactSkipped; e.extstorePageAllocs; e.extstorePageEvictions;
    e.extstorePageReclaims; e.extstorePagesFree; e.extstorePagesUsed;
    e.extstoreObjectsEvicted; e.extstoreObjectsRead; e.extstoreObjectsWritten;
    e.extstoreObjectsUsed; e.extstoreBytesEvicted; e.extstoreBytesWritten;
    e.extstoreBytesRead; e.extstoreBytesUsed; e.extstoreBytesLimit;
    e.extstoreBytesFragmented; e.extstoreIOQueueDepth; e.acceptingConnections ].

(** The value [m] has for the label called [name] in its descriptor. *)
Fixpoint pair_up (names values : list string) (name : string)
  : option string :=
  match names, values with
  | n :: names, v :: values =>
      if String.eqb n name then Some v else pair_up names values name
  | _, _ => None
  end.

Definition label (m : Metric) (name : string) : option string :=
  pair_up (variableLabels (New_desc (desc m))) (labelValues m) name.

(** [m] has one value for each label its descriptor declares, which is
    what [prometheus.MustNewConstMetric] panics about otherwise. *)
Definition arity_ok (m : Metric) : Prop :=
  length (labelValues m) = length (variableLabels (New_desc (desc m))).

(** The gauges of the settings translator. *)
Definition isSetting (m : Metric) : bool :=
  match desc m with
  | e.maxConnections => true
  | _ => isCrawlerSetting m
  end.

(** ** The addresses read by [New] *)

(** [strings.IndexByte]: the index of the first [c] in [s], or -1. *)
Fixpoint IndexByte (s : string) (c : ascii) : Z :=
  match s with
  | EmptyString => -1
  | String b rest =>
      if Ascii.eqb b c then 0
      else let i := IndexByte rest c in
           if (i =? -1)%Z then -1 else (i + 1)%Z
  end.

Section Addresses.

(** [filepath.Glob(pattern)]: the matches, or [None] for a non-nil error. *)
Variable filepath_Glob : string -> option (list string).

(** The loop of [New] over the parts of the server string; [None] stands
    for [panic(err)]. *)
Fixpoint New_loop (parts addresses : list string) : option (list string) :=
  match parts with
  | [] => Some addresses
  | address :: parts =>
      if (0 <? String.length address)%nat then
        if match address with                       (* address[0] == '/' *)
           | String b _ => Ascii.eqb b "/"
           | EmptyString => false
           end && negb (IndexByte address "*" =? -1)%Z
        then
          match filepath_Glob address with
          | None => None
          | Some matches => New_loop parts (addresses ++ matches)
          end
        else New_loop parts (addresses ++ [address])
      else New_loop parts addresses
  end.

(** The [addresses] field of the exporter that [New(server, ...)] returns. *)
Definition New (server : string) : option (list string) :=
  New_loop (Split server ",") [].

(** What one part of the server string stands for: nothing when empty,
    the matches of [filepath.Glob] when it starts with "/" and holds a "*",
    and itself otherwise. *)
Definition expand (address : string) : option (list string) :=
  match address with
  | EmptyString => Some []
  | String b _ =>
      if Ascii.eqb b "/" && negb (IndexByte address "*" =? -1)%Z
      then filepath_Glob address
      else Some [address]
  end.

End Addresses.

(** ** Collect *)

(** [Collect] starts one goroutine per address, each running
    [CollectServer], and waits for all of them.  Every send on the channel
    is one step; the channel receives the sends of the goroutines in some
    interleaving, each goroutine's own sends in their order. *)
Inductive interleaves : list (list Metric) -> list Metric -> Prop :=
| interleaves_done pending :
    Forall (fun sends => sends = []) pending -> interleaves pending []
| interleaves_send before m sends after received :
    interleaves (before ++ sends :: after) received ->
    interleaves (before ++ (m :: sends) :: after) (m :: received).

Definition Collect (addresses : list string) (received : list Metric) : Prop :=
  interleaves (map (fun server => sent (CollectServer server)) addresses)
    received.

(** The server label of [m] is [server]. *)
Definition fromServer (server : string) (m : Metric) : bool :=
  match label m "server" with
  | Some v => String.eqb v server
  | None => false
  end.

(** A step of a translator threads [parseError] without looking at it: it
    sends the same metrics whatever [parseError] is, and returns its own
    error if it has one and [parseError] if not. *)
Definition framed (step : option error -> Sends (option error)) : Prop :=
  forall parseError,
    step parseError
    = (record (returned (step None)) parseError, sent (step None)).

(** * Properties *)

(** ** The channel *)

Lemma sent_bind {A B} (m : Sends A) (k : A -> Sends B) :
  sent (m ≫= k) = sent m ++ sent (k (returned m)).
Proof. reflexivity. Qed.

Lemma returned_bind {A B} (m : Sends A) (k : A -> Sends B) :
  returned (m ≫= k) = returned (k (returned m)).
Proof. reflexivity. Qed.

Lemma sent_ret {A} (a : A) : sent (mret a : Sends A) = [].
Proof. reflexivity. Qed.

Lemma sent_args {A} (calls : list (Sends A)) :
  sent (args calls) = concat (map sent calls).
Proof.
  induction calls as [|c calls IH]; [reflexivity|].
  cbn [args]. rewrite !sent_bind, IH, sent_ret, app_nil_r. reflexivity.
Qed.


Lemma sends_only_ret {A} P (a : A) : sends_only P (mret a : Sends A).
Proof. constructor. Qed.

Lemma sends_only_send (P : Metric -> Prop) m : P m -> sends_only P (send m).
Proof. intros H. repeat constructor. exact H. Qed.

Lemma sends_only_bind {A B} P (m : Sends A) (k : A -> Sends B) :
  sends_only P m -> (forall a, sends_only P (k a)) -> sends_only P (m ≫= k).
Proof.
  unfold sends_only. intros Hm Hk. rewrite sent_bind.
  apply Forall_app. split; [exact Hm | apply Hk].
Qed.

Lemma sends_only_args {A} P (calls : list (Sends A)) :
  Forall (sends_only P) calls -> sends_only P (args calls).
Proof.
  unfold sends_only. rewrite sent_args.
  induction 1 as [|c calls Hc _ IH]; cbn; [constructor|].
  apply Forall_app. split; assumption.
Qed.

Lemma sends_only_range {A B} P (l : list A) (acc : B) body :
  Forall (fun x => forall acc, sends_only P (body acc x)) l ->
  sends_only P (range l acc body).
Proof.
  intros H. revert acc.
  induction H as [|x l Hx _ IH]; intros acc; cbn [range].
  - apply sends_only_ret.
  - apply sends_only_bind; [apply Hx | intros acc'; apply IH].
Qed.

Lemma sends_only_extract (P : Metric -> Prop) desc valueType f stats key labelValues :
  (forall v, P (MustNewConstMetric desc valueType v labelValues)) ->
  sends_only P (extractValueAndNewMetric desc valueType f stats key labelValues).
Proof.
  intros H. unfold extractValueAndNewMetric.
  destruct (f stats key) as [v|[]];
    try apply sends_only_ret.
  apply sends_only_bind; [apply sends_only_send, H | intros; apply sends_only_ret].
Qed.

Lemma filter_sends_only {A} (p : Metric -> bool) (m : Sends A) :
  sends_only (fun x => p x = false) m -> List.filter p (sent m) = [].
Proof.
  unfold sends_only. induction 1 as [|x l Hx _ IH]; cbn; [reflexivity|].
  rewrite Hx. exact IH.
Qed.

(** ** Scalar parsers and the binder *)

Lemma Split_length s sep : length (Split s sep) = S (count_sep s sep).
Proof.
  induction s as [|c rest IH]; cbn [Split count_sep]; [reflexivity|].
  destruct (Ascii.eqb c sep); cbn [length]; [now rewrite IH|].
  destruct (Split rest sep); cbn in *; lia.
Qed.

Lemma Split_no_sep s sep : count_sep s sep = 0 -> Split s sep = [s].
Proof.
  induction s as [|c rest IH]; cbn [Split count_sep]; [reflexivity|].
  destruct (Ascii.eqb c sep); [discriminate|].
  intros H. rewrite IH by exact H. reflexivity.
Qed.

Lemma Split_at_sep a b sep :
  count_sep a sep = 0 -> Split (a +:+ String sep b) sep = a :: Split b sep.
Proof.
  induction a as [|c rest IH]; simpl.
  - rewrite Ascii.eqb_refl. reflexivity.
  - destruct (Ascii.eqb c sep); [discriminate|].
    intros H. rewrite IH by exact H. reflexivity.
Qed.

Lemma count_sep_app a b sep :
  count_sep (a +:+ b) sep = count_sep a sep + count_sep b sep.
Proof.
  induction a as [|c rest IH]; simpl; [reflexivity|].
  rewrite IH. lia.
Qed.

Lemma extract_err desc valueType f stats key labelValues err :
  f stats key = Err err -> err <> errKeyNotFound ->
  extractValueAndNewMetric desc valueType f stats key labelValues
  = (Some err, []).
Proof.
  intros Hf Hne. unfold extractValueAndNewMetric. rewrite Hf.
  destruct err; try reflexivity. congruence.
Qed.

Lemma extract_absent desc valueType f stats key labelValues :
  f stats key = Err errKeyNotFound ->
  extractValueAndNewMetric desc valueType f stats key labelValues = (None, []).
Proof. intros Hf. unfold extractValueAndNewMetric. rewrite Hf. reflexivity. Qed.

Lemma extract_ok desc valueType f stats key labelValues v :
  f stats key = Ok v ->
  extractValueAndNewMetric desc valueType f stats key labelValues
  = (None, [MustNewConstMetric desc valueType v labelValues]).
Proof. intros Hf. unfold extractValueAndNewMetric. rewrite Hf. reflexivity. Qed.

(** C5. Binding a key that the record does not hold sends nothing and
    returns nil, whichever of the three parsers (numeric, boolean,
    split-duration) the binder is given. *)
Theorem absent_key_is_noop desc valueType
    (stats : gmap string string) key labelValues :
  stats !! key = None ->
  parseAndNewMetric desc valueType stats key labelValues = (None, []) /\
  parseBoolAndNewMetric desc valueType stats key labelValues = (None, []) /\
  parseTimevalAndNewMetric desc valueType stats key labelValues = (None, []).
Proof.
  intros Habsent.
  unfold parseAndNewMetric, parseBoolAndNewMetric, parseTimevalAndNewMetric.
  repeat split; apply extract_absent;
    unfold parse, parseBool, parseTimeval; rewrite Habsent; reflexivity.
Qed.

(** C6. On a present value [S.F] whose two parts (free of the separator,
    as integer literals are) [strconv.ParseFloat] reads as [s] and [f], the
    split-duration parser returns [s + f/1e6].  On a present value that does
    not hold exactly one separator, or one of whose two parts
    [strconv.ParseFloat] rejects, it fails with the timeval error, and the
    binder then sends nothing and returns that error. *)
Theorem parseTimeval_spec (stats : gmap string string) key value :
  stats !! key = Some value ->
  (forall S F s f,
      value = S +:+ "." +:+ F ->
      count_sep S "." = 0 -> count_sep F "." = 0 ->
      ParseFloat S = Some s -> ParseFloat F = Some f ->
      parseTimeval stats key = Ok (s + f / 1000000)%float) /\
  (count_sep value "." <> 1 \/
   (exists S F, value = S +:+ "." +:+ F /\
                (ParseFloat S = None \/ ParseFloat F = None)) ->
   parseTimeval stats key = Err errParseTimeval /\
   forall desc valueType labelValues,
     parseTimevalAndNewMetric desc valueType stats key labelValues
     = (Some errParseTimeval, [])).
Proof.
  intros Hpresent. split.
  - intros S F s f -> HS HF Hs Hf. unfold parseTimeval. rewrite Hpresent.
    change ("." +:+ F) with (String "." F).
    rewrite Split_at_sep, Split_no_sep, Hs, Hf by assumption. reflexivity.
  - intros Hbad.
    assert (parseTimeval stats key = Err errParseTimeval) as Herr.
    { unfold parseTimeval. rewrite Hpresent.
      destruct Hbad as [Hcount | (S & F & -> & Hparts)].
      - pose proof (Split_length value ".") as Hlen.
        destruct (Split value ".") as [|a [|b [|? ?]]]; try reflexivity.
        cbn in Hlen. congruence.
      - change ("." +:+ F) with (String "." F).
        destruct (decide (count_sep S "." = 0)) as [HS|HS].
        + rewrite Split_at_sep by exact HS.
          pose proof (Split_length F ".") as Hlen.
          destruct (Split F ".") as [|b [|? ?]] eqn:HF; try reflexivity.
          assert (count_sep F "." = 0) as HF0 by (cbn in Hlen; lia).
          rewrite Split_no_sep in HF by exact HF0. injection HF as <-.
          destruct Hparts as [-> | H2]; [reflexivity|].
          rewrite H2. destruct (ParseFloat S); reflexivity.
        + pose proof (Split_length (S +:+ String "." F) ".") as Hlen.
          rewrite count_sep_app in Hlen. cbn [count_sep] in Hlen.
          rewrite Ascii.eqb_refl in Hlen.
          destruct (Split (S +:+ String "." F) ".") as [|a [|b [|? ?]]];
            try reflexivity.
          cbn in Hlen. lia. }
    split; [exact Herr|]. intros. 
    unfold parseTimevalAndNewMetric. apply extract_err; [exact Herr | discriminate].
Qed.

(** ** What the translators send *)

(** Walks through a translator, leaving one goal per metric it may send. *)
Ltac sends_only_walk :=
  repeat first
    [ apply sends_only_ret
    | apply sends_only_send
    | apply sends_only_extract; intros ?
    | apply sends_only_bind; [|intros ?]
    | apply sends_only_args
    | apply sends_only_range
    | apply List.Forall_nil
    | apply List.Forall_cons; [try intros ?|]
    | apply Forall_forall; intros [? ?] _ ?
    | progress cbv beta zeta
    | match goal with
      | |- sends_only _ (match ?x with Some _ => _ | None => _ end) =>
          destruct x
      | |- sends_only _ (match ?x with Ok _ => _ | Err _ => _ end) =>
          destruct x
      | |- sends_only _ (if ?b then _ else _) => destruct b
      end ].

Lemma filter_sends_all {A} (p : Metric -> bool) (m : Sends A) :
  sends_only (fun x => p x = true) m -> List.filter p (sent m) = sent m.
Proof.
  unfold sends_only. induction 1 as [|x l Hx _ IH]; cbn; [reflexivity|].
  rewrite Hx, IH. reflexivity.
Qed.

Lemma filter_bind {A B} p (m : Sends A) (k : A -> Sends B) :
  List.filter p (sent (m ≫= k))
  = List.filter p (sent m) ++ List.filter p (sent (k (returned m))).
Proof. rewrite sent_bind. apply List.filter_app. Qed.

(** Drops the first piece of a translator when it sends nothing that [p]
    selects. *)
Ltac drop_head :=
  rewrite filter_bind;
  match goal with
  | |- List.filter ?p (sent ?m) ++ _ = _ =>
      rewrite (filter_sends_only p m)
        by (autounfold with translators; cbv beta zeta;
            sends_only_walk; reflexivity)
  end;
  cbn [app]; cbv beta zeta.

(** Drops what follows the piece of interest. *)
Ltac drop_tail :=
  rewrite filter_bind;
  match goal with
  | |- _ ++ List.filter ?p (sent ?m) = _ =>
      rewrite (filter_sends_only p m)
        by (autounfold with translators; cbv beta zeta;
            sends_only_walk; reflexivity)
  end;
  rewrite app_nil_r.

Lemma sent_parseStats_set server s parseError :
  sent (parseStats_set server s parseError)
  = sent (parseStats_set server s None).
Proof.
  unfold parseStats_set.
  destruct (parse s "cmd_set"); [|reflexivity].
  destruct (sum _ _); reflexivity.
Qed.

Lemma sent_parseStats_slabSet server slab v parseError :
  sent (parseStats_slabSet server slab v parseError)
  = sent (parseStats_slabSet server slab v None).
Proof.
  unfold parseStats_slabSet.
  destruct (parse v "cmd_set"); [|reflexivity].
  destruct (sum _ _); reflexivity.
Qed.

Lemma sent_parseStats_extstore server s parseError :
  sent (parseStats_extstore server s parseError)
  = sent (parseStats_extstore server s None).
Proof.
  unfold parseStats_extstore.
  destruct (s !! "extstore_limit_maxbytes"); reflexivity.
Qed.

(** Of what one stats record makes the translator send, the "set" counter
    comes from [parseStats_set] and the extstore family from
    [parseStats_extstore]. *)
Lemma entry_set server parseError entry :
  List.filter isSet (sent (parseStats_entry server parseError entry))
  = List.filter isSet (sent (parseStats_set server (Stats_ entry.2) None)).
Proof.
  unfold parseStats_entry. cbv zeta.
  do 3 drop_head. drop_tail.
  rewrite sent_parseStats_set. reflexivity.
Qed.

Lemma entry_extstore server parseError entry :
  List.filter isExtstore (sent (parseStats_entry server parseError entry))
  = List.filter isExtstore
      (sent (parseStats_extstore server (Stats_ entry.2) None)).
Proof.
  unfold parseStats_entry. cbv zeta.
  do 3 drop_head.
  rewrite filter_bind.
  match goal with
  | |- List.filter ?p (sent ?m) ++ _ = _ =>
      rewrite (filter_sends_only p m)
        by (unfold parseStats_set; sends_only_walk; reflexivity)
  end.
  cbn [app]. drop_tail.
  rewrite sent_parseStats_extstore. reflexivity.
Qed.

(** ** Errors are never forgotten *)

Lemma record_keeps err parseError :
  is_Some parseError -> is_Some (record err parseError).
Proof. destruct err; [eauto | trivial]. Qed.

Lemma range_keeps {A} (l : list A) (acc : option error) body :
  (forall acc x, is_Some acc -> is_Some (returned (body acc x))) ->
  is_Some acc -> is_Some (returned (range l acc body)).
Proof.
  intros Hbody. revert acc.
  induction l as [|x l IH]; intros acc Hacc; cbn [range]; [exact Hacc|].
  rewrite returned_bind. apply IH, Hbody, Hacc.
Qed.

Lemma range_hits {A} (l : list A) (acc : option error) body x :
  x ∈ l ->
  (forall acc, is_Some (returned (body acc x))) ->
  (forall acc y, is_Some acc -> is_Some (returned (body acc y))) ->
  is_Some (returned (range l acc body)).
Proof.
  intros Hx Hhit Hbody. revert acc.
  induction l as [|y l IH]; intros acc; [by apply elem_of_nil in Hx|].
  cbn [range]. rewrite returned_bind.
  apply elem_of_cons in Hx as [<- | Hx].
  - apply range_keeps; [exact Hbody | apply Hhit].
  - apply IH, Hx.
Qed.

Lemma set_keeps server s parseError :
  is_Some parseError -> is_Some (returned (parseStats_set server s parseError)).
Proof.
  intros H. unfold parseStats_set.
  destruct (parse s "cmd_set"); [|cbn; eauto].
  destruct (sum _ _); [exact H | cbn; eauto].
Qed.

Lemma slabSet_keeps server slab v parseError :
  is_Some parseError ->
  is_Some (returned (parseStats_slabSet server slab v parseError)).
Proof.
  intros H. unfold parseStats_slabSet.
  destruct (parse v "cmd_set"); [|cbn; eauto].
  destruct (sum _ _); [exact H | cbn; eauto].
Qed.

Lemma extstore_keeps server s parseError :
  is_Some parseError ->
  is_Some (returned (parseStats_extstore server s parseError)).
Proof.
  intros H. unfold parseStats_extstore.
  destruct (s !! "extstore_limit_maxbytes"); [|exact H].
  rewrite returned_bind. apply record_keeps, H.
Qed.

Ltac keeps_walk :=
  repeat first
    [ assumption
    | rewrite returned_bind
    | apply record_keeps
    | apply set_keeps
    | apply slabSet_keeps
    | apply extstore_keeps
    | apply range_keeps; [intros ? [? ?] ?|]
    | apply range_keeps; [intros ? ? ?|]
    | progress cbv beta zeta
    | match goal with
      | |- is_Some (returned (match ?x with Some _ => _ | None => _ end)) =>
          destruct x
      end ].

Lemma items_keeps server parseError entry :
  is_Some parseError ->
  is_Some (returned (parseStats_items server parseError entry)).
Proof.
  intros H. destruct entry as [slab u]. unfold parseStats_items.
  keeps_walk.
Qed.

Lemma slabs_keeps server parseError entry :
  is_Some parseError ->
  is_Some (returned (parseStats_slabs server parseError entry)).
Proof.
  intros H. destruct entry as [slab v]. unfold parseStats_slabs.
  keeps_walk.
Qed.

(** What follows the derived "set" counter keeps the error it recorded. *)
Lemma entry_keeps_set server parseError entry :
  (forall parseError',
      (is_Some parseError -> is_Some parseError') ->
      is_Some (returned (parseStats_set server (Stats_ entry.2) parseError'))) ->
  is_Some (returned (parseStats_entry server parseError entry)).
Proof.
  intros Hset. unfold parseStats_entry. cbv zeta.
  rewrite !returned_bind.
  apply range_keeps; [apply slabs_keeps|].
  apply range_keeps; [apply items_keeps|].
  apply record_keeps, extstore_keeps, Hset.
  intros H. keeps_walk.
Qed.

Lemma entry_keeps server parseError entry :
  is_Some parseError ->
  is_Some (returned (parseStats_entry server parseError entry)).
Proof.
  intros H. apply entry_keeps_set. intros pe Hpe. apply set_keeps, Hpe, H.
Qed.

Lemma parse_numeric s key v : numeric s key = Some v -> parse s key = Ok v.
Proof.
  unfold numeric, parse. destruct (s !! key); [|discriminate].
  intros ->. reflexivity.
Qed.

Lemma parse_not_numeric s key :
  numeric s key = None -> exists err, parse s key = Err err.
Proof.
  unfold numeric, parse. destruct (s !! key); [|eauto].
  intros ->. eauto.
Qed.

Lemma sum_from_numeric s key keys acc v :
  numeric s key = Some v ->
  sum_from acc s (key :: keys) = sum_from (acc + v)%float s keys.
Proof.
  unfold numeric. cbn [sum_from]. destruct (s !! key); [|discriminate].
  intros ->. reflexivity.
Qed.

Lemma sum_from_not_numeric s key keys acc :
  numeric s key = None -> exists err, sum_from acc s (key :: keys) = Err err.
Proof.
  unfold numeric. cbn [sum_from]. destruct (s !! key); [|eauto].
  intros ->. eauto.
Qed.

Lemma sum_from_none s keys acc :
  (exists key, key ∈ keys /\ numeric s key = None) ->
  exists err, sum_from acc s keys = Err err.
Proof.
  revert acc. induction keys as [|k keys IH]; intros acc (key & Hin & Hkey).
  - by apply elem_of_nil in Hin.
  - destruct (numeric s k) as [v|] eqn:Hk.
    + rewrite (sum_from_numeric _ _ _ _ _ Hk). apply IH.
      exists key. split; [|exact Hkey].
      apply elem_of_cons in Hin as [-> | Hin]; [congruence | exact Hin].
    + apply sum_from_not_numeric, Hk.
Qed.

Lemma slabs_slabSet server parseError slab v :
  List.filter isSlabSet (sent (parseStats_slabs server parseError (slab, v)))
  = List.filter isSlabSet
      (sent (parseStats_slabSet server (Itoa slab) v None)).
Proof.
  unfold parseStats_slabs. cbv zeta.
  do 2 drop_head. drop_tail.
  rewrite sent_parseStats_slabSet. reflexivity.
Qed.

(** ** The claims about one stats record *)

(** C2. When the record holds cmd_set, cas_hits, cas_misses and cas_badval
    with numeric values, translating it sends exactly one commands
    observation labelled "set", "hit": a counter whose value is cmd_set
    minus the sum of the three cas fields (accumulated by [sum] from 0 in
    the order cas_misses, cas_hits, cas_badval).  When one of the four is
    absent or malformed, no such observation is sent and the failure is
    recorded: the translation of the record, and with it [parseStats] on
    any stats holding the record, returns an error. *)
Theorem derived_set_spec server parseError (entry : Addr * Stats) :
  let s := Stats_ entry.2 in
  (forall set hits misses badval,
      numeric s "cmd_set" = Some set ->
      numeric s "cas_hits" = Some hits ->
      numeric s "cas_misses" = Some misses ->
      numeric s "cas_badval" = Some badval ->
      List.filter isSet (sent (parseStats_entry server parseError entry))
      = [MustNewConstMetric e.commands CounterValue
           (set - (0 + misses + hits + badval))%float
           ["set"; "hit"; server]]) /\
  (numeric s "cmd_set" = None \/ numeric s "cas_hits" = None \/
   numeric s "cas_misses" = None \/ numeric s "cas_badval" = None ->
   List.filter isSet (sent (parseStats_entry server parseError entry)) = [] /\
   is_Some (returned (parseStats_entry server parseError entry)) /\
   forall stats, entry ∈ stats ->
                 is_Some (returned (parseStats stats server))).
Proof.
  intros s. split.
  - intros set hits misses badval Hset Hhits Hmisses Hbadval.
    rewrite entry_set. fold s. unfold parseStats_set, sum.
    rewrite (parse_numeric _ _ _ Hset).
    rewrite (sum_from_numeric _ _ _ _ _ Hmisses).
    rewrite (sum_from_numeric _ _ _ _ _ Hhits).
    rewrite (sum_from_numeric _ _ _ _ _ Hbadval).
    reflexivity.
  - intros Hbad.
    assert (forall pe, exists err,
               parseStats_set server s pe = (Some err, [])) as Hfail.
    { intros pe. unfold parseStats_set.
      destruct Hbad as [Hset | Hcas].
      - destruct (parse_not_numeric _ _ Hset) as [err ->]. eauto.
      - destruct (parse s "cmd_set"); [|eauto].
        destruct (sum_from_none s ["cas_misses"; "cas_hits"; "cas_badval"]
                    0%float) as [err Herr].
        { destruct Hcas as [H | [H | H]]; eexists; (split; [|exact H]);
            repeat first [apply list_elem_of_here | apply list_elem_of_further]. }
        unfold sum. rewrite Herr. eauto. }
    assert (forall pe, is_Some (returned (parseStats_entry server pe entry)))
      as Hentry.
    { intros pe. apply entry_keeps_set. intros pe' _. fold s.
      destruct (Hfail pe') as [err ->]. cbn. eauto. }
    split; [|split].
    + rewrite entry_set. fold s. destruct (Hfail None) as [err ->].
      reflexivity.
    + apply Hentry.
    + intros stats Hin. unfold parseStats.
      apply (range_hits _ _ _ entry Hin Hentry).
      intros acc y. apply entry_keeps.
Qed.

(** C3, as the code has it.  When a slab's record holds cmd_set, cas_hits
    and cas_badval with numeric values, translating it sends exactly one
    slab-level commands observation labelled "set", "hit", whose value is
    the slab's cmd_set minus the sum of its cas_hits and cas_badval;
    cas_misses is not read. *)
Theorem slab_set_spec server parseError slab (v : gmap string string)
    set hits badval :
  numeric v "cmd_set" = Some set ->
  numeric v "cas_hits" = Some hits ->
  numeric v "cas_badval" = Some badval ->
  List.filter isSlabSet (sent (parseStats_slabs server parseError (slab, v)))
  = [MustNewConstMetric e.slabsCommands CounterValue
       (set - (0 + hits + badval))%float
       [Itoa slab; "set"; "hit"; server]].
Proof.
  intros Hset Hhits Hbadval.
  rewrite slabs_slabSet. unfold parseStats_slabSet, sum.
  rewrite (parse_numeric _ _ _ Hset).
  rewrite (sum_from_numeric _ _ _ _ _ Hhits).
  rewrite (sum_from_numeric _ _ _ _ _ Hbadval).
  reflexivity.
Qed.

(** C7. Translating a stats record without the key extstore_limit_maxbytes
    sends no extstore observation, whatever other extstore fields the
    record holds; with the key present, the extstore observations sent are
    those of binding every field of the group, in order. *)
Theorem extstore_gate server parseError (entry : Addr * Stats) :
  let s := Stats_ entry.2 in
  (s !! "extstore_limit_maxbytes" = None ->
   List.filter isExtstore (sent (parseStats_entry server parseError entry))
   = []) /\
  (is_Some (s !! "extstore_limit_maxbytes") ->
   List.filter isExtstore (sent (parseStats_entry server parseError entry))
   = flat_map (fun '(desc, valueType, key) =>
                 sent (parseAndNewMetric desc valueType s key [server]))
       extstoreGroup).
Proof.
  intros s. rewrite entry_extstore. fold s. unfold parseStats_extstore.
  split.
  - intros ->. reflexivity.
  - intros [value ->].
    rewrite filter_sends_all by (sends_only_walk; reflexivity).
    rewrite sent_bind, sent_ret, app_nil_r, sent_args.
    cbn [map concat flat_map extstoreGroup]. reflexivity.
Qed.

(** C8, as the code has it.  Translating a stats record always sends
    exactly one version observation, a gauge with value 1; its version
    label is the value of the version field, and the empty string when the
    record has no such field. *)
Theorem version_sent_unconditionally server parseError (entry : Addr * Stats) :
  List.filter isVersion (sent (parseStats_entry server parseError entry))
  = [MustNewConstMetric e.version GaugeValue 1%float
       [match Stats_ entry.2 !! "version" with
        | Some version => version
        | None => ""
        end; server]].
Proof.
  unfold parseStats_entry. cbv zeta. rewrite filter_bind.
  match goal with
  | |- _ ++ List.filter ?p (sent ?m) = _ =>
      rewrite (filter_sends_only p m)
        by (autounfold with translators; cbv beta zeta;
            sends_only_walk; reflexivity)
  end.
  reflexivity.
Qed.

(** ** The settings record *)

Lemma lru_crawler_guard (settings : gmap string string) :
  match settings !! "lru_crawler" with
  | Some v => String.eqb v "yes"
  | None => false
  end = true <-> settings !! "lru_crawler" = Some "yes".
Proof.
  destruct (settings !! "lru_crawler") as [v|]; [|split; discriminate].
  rewrite String.eqb_eq. split; congruence.
Qed.

(** C10. In translating a settings record, a crawler gauge (the enabled
    gauge included) is sent only if the lru_crawler field is present and
    equal to "yes"; for any other value, and when the field is absent, the
    translation is that of binding maxconns alone, so that nothing else is
    sent and no error is returned for it.  The maxconns binding comes first
    in either case.  With "yes" the enabled gauge is sent with value 1. *)
Theorem crawler_gate server parseError (entry : Addr * gmap string string) :
  let settings := entry.2 in
  let maxconns :=
    parseAndNewMetric e.maxConnections GaugeValue settings "maxconns" [server] in
  let translated := parseStatsSettings_entry server parseError entry in
  (forall m, m ∈ sent translated -> isCrawlerSetting m = true ->
             settings !! "lru_crawler" = Some "yes") /\
  (settings !! "lru_crawler" <> Some "yes" ->
   translated = (record (returned maxconns) parseError, sent maxconns)) /\
  (exists rest, sent translated = sent maxconns ++ rest) /\
  (settings !! "lru_crawler" = Some "yes" ->
   MustNewConstMetric e.lruCrawlerEnabled GaugeValue 1%float [server]
   ∈ sent translated).
Proof.
  intros settings maxconns translated.
  assert (sends_only (fun m => isCrawlerSetting m = false) maxconns) as Hmax.
  { subst maxconns. unfold parseAndNewMetric. sends_only_walk. reflexivity. }
  assert (settings !! "lru_crawler" <> Some "yes" ->
          translated = (record (returned maxconns) parseError, sent maxconns))
    as Hno.
  { intros Hne. subst translated. unfold parseStatsSettings_entry.
    cbv zeta. fold settings. fold maxconns.
    destruct (match settings !! "lru_crawler" with
              | Some v => String.eqb v "yes" | None => false end) eqn:Hguard.
    - apply lru_crawler_guard in Hguard. contradiction.
    - unfold mbind, Sends_bind, mret, Sends_ret, sent. cbn.
      rewrite app_nil_r. reflexivity. }
  split; [|split; [exact Hno|split]].
  - intros m Hin Hcrawler.
    destruct (decide (settings !! "lru_crawler" = Some "yes")) as [|Hne];
      [assumption|].
    rewrite (Hno Hne) in Hin. cbn in Hin.
    unfold sends_only in Hmax. rewrite Forall_forall in Hmax.
    apply Hmax in Hin. congruence.
  - subst translated. unfold parseStatsSettings_entry. cbv zeta.
    rewrite sent_bind. eexists. reflexivity.
  - intros Hyes. subst translated. unfold parseStatsSettings_entry.
    cbv zeta. fold settings.
    rewrite (proj2 (lru_crawler_guard settings) Hyes).
    rewrite !sent_bind, sent_args. cbn [map concat].
    apply elem_of_app. right. apply elem_of_app. left. apply elem_of_app. left.
    unfold parseBoolAndNewMetric.
    erewrite extract_ok; [by apply list_elem_of_singleton|].
    unfold parseBool. rewrite Hyes. reflexivity.
Qed.

(** ** The collector *)

Lemma parseStats_no_up stats server :
  sends_only (fun m => isUp m = false) (parseStats stats server).
Proof.
  autounfold with translators; cbv beta zeta. sends_only_walk; reflexivity.
Qed.

Lemma parseStatsSettings_no_up statsSettings server :
  sends_only (fun m => isUp m = false) (parseStatsSettings statsSettings server).
Proof.
  autounfold with translators; cbv beta zeta. sends_only_walk; reflexivity.
Qed.

(** C1, as the code has it.  [CollectServer] sends exactly one up
    observation, labelled with the server.  When [memcache.New] fails it is
    the only metric sent and its value is 0.  Otherwise its value is 1 if
    both fetches ([Stats], [StatsSettings]) returned no error and both
    translators returned nil, and 0 if not; it comes last, after what the
    two translators sent for whatever the fetches returned. *)
Theorem CollectServer_up server :
  match memcache_New server with
  | inr _ =>
      sent (CollectServer server)
      = [MustNewConstMetric e.up GaugeValue 0%float [server]]
  | inl c =>
      let up := MustNewConstMetric e.up GaugeValue
                  (if healthy c server then 1 else 0)%float [server] in
      List.filter isUp (sent (CollectServer server)) = [up] /\
      sent (CollectServer server)
      = sent (parseStats (c_Stats c).1 server)
        ++ sent (parseStatsSettings (c_StatsSettings c).1 server) ++ [up]
  end.
Proof.
  unfold CollectServer.
  destruct (memcache_New server) as [c|err]; [|reflexivity].
  unfold healthy. cbv zeta.
  destruct (c_Stats c) as [stats err1], (c_StatsSettings c) as [settings err2].
  cbn [fst snd].
  assert (forall A B (m : Sends A) (k : A -> Sends B) l,
             sent (k (returned m)) = l ->
             sent (m ≫= k) = sent m ++ l) as Hbind.
  { intros A B m k l <-. apply sent_bind. }
  match goal with
  | |- _ /\ ?X = ?Y => assert (X = Y) as Heq
  end.
  { apply Hbind. apply Hbind.
    destruct err1, err2,
      (returned (parseStats stats server)),
      (returned (parseStatsSettings settings server)); reflexivity. }
  split; [|exact Heq].
  rewrite Heq, !List.filter_app.
  rewrite (filter_sends_only _ _ (parseStats_no_up stats server)).
  rewrite (filter_sends_only _ _
             (parseStatsSettings_no_up settings server)).
  reflexivity.
Qed.

(** ** Describe *)

(** C9, as the code has it.  [Describe] sends the descriptor of every
    field of the exporter; it sends [e.itemsExpiredUnfetched] twice and
    every other one once. *)
Theorem Describe_counts d :
  count_occ e.eq_dec Describe d
  = if decide (d = e.itemsExpiredUnfetched) then 2 else 1.
Proof. destruct d; vm_compute; reflexivity. Qed.

(** ** Where a returned error comes from *)




















(** * Further properties of the code *)

(** ** Labels *)

Lemma sends_only_CollectServer (P : Metric -> Prop) server :
  (forall up, P (MustNewConstMetric e.up GaugeValue up [server])) ->
  (forall stats, sends_only P (parseStats stats server)) ->
  (forall statsSettings,
      sends_only P (parseStatsSettings statsSettings server)) ->
  sends_only P (CollectServer server).
Proof.
  intros Hup Hstats Hsettings. unfold CollectServer.
  destruct (memcache_New server) as [c|err];
    [|apply sends_only_send, Hup].
  destruct (c_Stats c) as [stats err1], (c_StatsSettings c) as [settings err2].
  cbv zeta. apply sends_only_bind; [apply Hstats|]. intros err3.
  apply sends_only_bind; [apply Hsettings|]. intros err4.
  apply sends_only_send, Hup.
Qed.

Lemma CollectServer_labels server :
  sends_only (fun m => arity_ok m /\ label m "server" = Some server)
    (CollectServer server).
Proof.
  apply sends_only_CollectServer; intros;
    autounfold with translators; cbv beta zeta;
    sends_only_walk; split; reflexivity.
Qed.

(** X1. Every metric [CollectServer] sends has exactly as many label
    values as the descriptor it is built with declares label names in
    [New], so that no [MustNewConstMetric] of a cycle panics over its
    labels. *)
Theorem CollectServer_arity server :
  Forall arity_ok (sent (CollectServer server)).
Proof.
  eapply Forall_impl; [apply CollectServer_labels|].
  intros m [Harity _]. exact Harity.
Qed.

(** X2. Every descriptor of [New] has a label called server, and in every
    metric [CollectServer] sends for an address the value of that label is
    the address. *)
Theorem CollectServer_server_label server :
  (forall field, "server" ∈ variableLabels (New_desc field)) /\
  Forall (fun m => label m "server" = Some server)
    (sent (CollectServer server)).
Proof.
  split.
  - intros field. destruct field; cbn [New_desc variableLabels];
      repeat first [apply list_elem_of_here | apply list_elem_of_further].
  - eapply Forall_impl; [apply CollectServer_labels|].
    intros m [_ Hlabel]. exact Hlabel.
Qed.

(** X3. The settings translator sends nothing but gauges of the settings
    family (maxconns and the crawler tuning), and the stats translator
    sends none of that family; neither sends the up gauge. *)
Theorem translators_families stats statsSettings server :
  Forall (fun m => isSetting m = true /\ valueType m = GaugeValue)
    (sent (parseStatsSettings statsSettings server)) /\
  Forall (fun m => isSetting m = false /\ isUp m = false)
    (sent (parseStats stats server)).
Proof.
  split; autounfold with translators; cbv beta zeta;
    sends_only_walk; split; reflexivity.
Qed.

(** ** How the translators compose *)

Lemma record_assoc a b c : record a (record b c) = record (record a b) c.
Proof. destruct a, b; reflexivity. Qed.

Lemma record_None_r a : record a None = a.
Proof. destruct a; reflexivity. Qed.

Lemma framed_ret : framed (fun parseError => mret parseError).
Proof. intros parseError. reflexivity. Qed.

Lemma framed_fail err : framed (fun _ => mret (Some err)).
Proof. intros parseError. reflexivity. Qed.

Lemma framed_let err step :
  framed step ->
  framed (fun parseError => let parseError := record err parseError in
                            step parseError).
Proof.
  unfold framed, returned, sent. cbv zeta.
  intros Hstep parseError.
  rewrite (Hstep (record err parseError)), (Hstep (record err None)).
  cbn [fst snd]. rewrite record_None_r, record_assoc. reflexivity.
Qed.

Lemma framed_bind first next :
  framed first -> framed next ->
  framed (fun parseError => first parseError ≫= next).
Proof.
  unfold framed, mbind, Sends_bind, returned, sent. cbv zeta.
  intros Hfirst Hnext parseError.
  rewrite (Hfirst parseError). cbn [fst snd].
  rewrite (Hnext (record _ parseError)), (Hnext (first None).1).
  cbn [fst snd]. rewrite record_assoc. reflexivity.
Qed.

Lemma framed_with {A} (m : Sends A) next :
  (forall a, framed (next a)) ->
  framed (fun parseError => m ≫= fun a => next a parseError).
Proof.
  unfold framed, mbind, Sends_bind, returned, sent. cbv zeta.
  intros Hnext parseError.
  rewrite (Hnext m.1 parseError). reflexivity.
Qed.

Lemma framed_range {A} (l : list A) body :
  (forall x, framed (fun parseError => body parseError x)) ->
  framed (fun parseError => range l parseError body).
Proof.
  intros Hbody. induction l as [|x l IH]; cbn [range].
  - apply framed_ret.
  - apply (framed_bind (fun parseError => body parseError x)
             (fun parseError => range l parseError body)); [apply Hbody | exact IH].
Qed.

Lemma framed_derived s keys emit :
  (forall setCmd cas, framed (emit setCmd cas)) ->
  framed (fun parseError =>
            match parse s "cmd_set" with
            | Ok setCmd =>
                match sum s keys with
                | Ok cas => emit setCmd cas parseError
                | Err casErr => mret (Some casErr)
                end
            | Err err => mret (Some err)
            end).
Proof.
  intros Hemit.
  destruct (parse s "cmd_set"); [|apply framed_fail].
  destruct (sum s keys); [apply Hemit | apply framed_fail].
Qed.

Lemma framed_set server s : framed (parseStats_set server s).
Proof.
  unfold parseStats_set.
  apply (framed_derived s _ (fun setCmd cas parseError =>
           send (MustNewConstMetric e.commands CounterValue
                   (setCmd - cas)%float ["set"; "hit"; server]);;
           mret parseError)).
  intros setCmd cas parseError. reflexivity.
Qed.

Lemma framed_slabSet server slab v : framed (parseStats_slabSet server slab v).
Proof.
  unfold parseStats_slabSet.
  apply (framed_derived v _ (fun slabSetCmd slabCas parseError =>
           send (MustNewConstMetric e.slabsCommands CounterValue
                   (slabSetCmd - slabCas)%float [slab; "set"; "hit"; server]);;
           mret parseError)).
  intros setCmd cas parseError. reflexivity.
Qed.

Lemma framed_extstore server s : framed (parseStats_extstore server s).
Proof.
  unfold parseStats_extstore.
  destruct (s !! "extstore_limit_maxbytes"); [|apply framed_ret].
  intros parseError. unfold mbind, Sends_bind, mret, Sends_ret, returned, sent.
  cbn [fst snd]. rewrite record_None_r. reflexivity.
Qed.

Lemma framed_record err step :
  framed step -> framed (fun parseError => step (record err parseError)).
Proof.
  unfold framed, returned, sent.
  intros Hstep parseError.
  rewrite (Hstep (record err parseError)), (Hstep (record err None)).
  cbn [fst snd]. rewrite record_None_r, record_assoc. reflexivity.
Qed.

Ltac framed_walk :=
  repeat first
    [ apply framed_ret
    | apply framed_fail
    | apply framed_set
    | apply framed_slabSet
    | apply framed_extstore
    | apply framed_range; first [intros [? ?] | intros ?]
    | apply (framed_record _ (fun parseError => range _ parseError _))
    | apply (framed_record _ (fun parseError => mret parseError))
    | apply (framed_record _ (fun parseError => mret (record _ parseError)))
    | apply (framed_record _ (fun parseError => parseStats_set _ _ parseError))
    | apply (framed_record _
               (fun parseError => parseStats_slabSet _ _ _ parseError))
    | apply framed_with; intros ?
    | apply framed_bind
    | progress cbv beta
    | match goal with
      | |- framed (fun _ => match ?x with Some _ => _ | None => _ end) =>
          destruct x
      | |- framed (fun _ => if ?b then _ else _) => destruct b
      end ].

Lemma framed_items server entry :
  framed (fun parseError => parseStats_items server parseError entry).
Proof.
  destruct entry as [slab u]. unfold parseStats_items. cbv zeta.
  framed_walk.
Qed.

Lemma framed_slabs server entry :
  framed (fun parseError => parseStats_slabs server parseError entry).
Proof.
  destruct entry as [slab v]. unfold parseStats_slabs. cbv zeta.
  framed_walk.
Qed.

Lemma framed_entry server entry :
  framed (fun parseError => parseStats_entry server parseError entry).
Proof.
  unfold parseStats_entry. cbv zeta. framed_walk.
Qed.

Lemma framed_settings server entry :
  framed (fun parseError => parseStatsSettings_entry server parseError entry).
Proof.
  unfold parseStatsSettings_entry. cbv zeta. framed_walk.
Qed.

Lemma range_app {A B} (l1 l2 : list A) (acc : B) body :
  range (l1 ++ l2) acc body
  = range l1 acc body ≫= fun acc => range l2 acc body.
Proof.
  revert acc. induction l1 as [|x l1 IH]; intros acc; cbn [range app].
  - unfold mbind, Sends_bind, mret, Sends_ret. cbn.
    destruct (range l2 acc body). reflexivity.
  - unfold mbind, Sends_bind in *. cbv zeta. rewrite IH. cbv zeta.
    cbn [fst snd]. rewrite app_assoc. reflexivity.
Qed.

Lemma framed_range_app {A} (l1 l2 : list A) body :
  (forall x, framed (fun parseError => body parseError x)) ->
  range (l1 ++ l2) None body
  = (record (returned (range l2 None body)) (returned (range l1 None body)),
     sent (range l1 None body) ++ sent (range l2 None body)).
Proof.
  intros Hbody. rewrite range_app.
  pose proof (framed_range l2 body Hbody (returned (range l1 None body)))
    as Hl2.
  unfold mbind, Sends_bind, returned, sent in *. cbv zeta.
  cbv beta in Hl2. rewrite Hl2. reflexivity.
Qed.

(** X4. Translating the stats of several addresses one after the other:
    what is sent for the first ones and for the later ones is what is sent
    for each alone, whether or not the others failed, and the error
    returned is that of the later ones when they have one, else that of
    the first ones (the last failure wins). *)
Theorem parseStats_app stats1 stats2 server :
  parseStats (stats1 ++ stats2) server
  = (record (returned (parseStats stats2 server))
       (returned (parseStats stats1 server)),
     sent (parseStats stats1 server) ++ sent (parseStats stats2 server)).
Proof.
  unfold parseStats. apply framed_range_app. intros entry.
  apply framed_entry.
Qed.

(** X5. The same for the settings translator. *)
Theorem parseStatsSettings_app settings1 settings2 server :
  parseStatsSettings (settings1 ++ settings2) server
  = (record (returned (parseStatsSettings settings2 server))
       (returned (parseStatsSettings settings1 server)),
     sent (parseStatsSettings settings1 server)
     ++ sent (parseStatsSettings settings2 server)).
Proof.
  unfold parseStatsSettings. apply framed_range_app. intros entry.
  apply framed_settings.
Qed.

(** ** The helpers *)

(** X6. [firstError] returns nil exactly when every error is nil, and
    otherwise the first one that is not. *)
Theorem firstError_spec errors :
  match firstError errors with
  | None => Forall (fun err => err = None) errors
  | Some err =>
      exists before after,
        errors = before ++ Some err :: after /\
        Forall (fun err => err = None) before
  end.
Proof.
  induction errors as [|[err|] errors IH]; cbn [firstError].
  - apply List.Forall_nil.
  - exists [], errors. split; [reflexivity | apply List.Forall_nil].
  - destruct (firstError errors) as [err|].
    + destruct IH as (before & after & -> & Hbefore).
      exists (None :: before), after.
      split; [reflexivity | by apply List.Forall_cons].
    + by apply List.Forall_cons.
Qed.

Lemma sum_from_spec s keys acc :
  match sum_from acc s keys with
  | Ok total =>
      exists values,
        Forall2 (fun key v => numeric s key = Some v) keys values /\
        total = fold_left PrimFloat.add values acc
  | Err err =>
      exists before key after,
        keys = before ++ key :: after /\
        Forall (fun key => is_Some (numeric s key)) before /\
        numeric s key = None /\
        err = match s !! key with
              | None => errKeyNotFound
              | Some value => NumError value
              end
  end.
Proof.
  revert acc. induction keys as [|key keys IH]; intros acc; cbn [sum_from].
  - exists []. split; [constructor | reflexivity].
  - unfold numeric at 2 3. unfold numeric in IH.
    destruct (s !! key) as [value|] eqn:Hkey.
    + destruct (ParseFloat value) as [v|] eqn:Hvalue.
      * specialize (IH (acc + v)%float).
        destruct (sum_from (acc + v) s keys) as [total|err].
        -- destruct IH as (values & Hvalues & ->).
           exists (v :: values). split; [|reflexivity].
           constructor; [|exact Hvalues].
           unfold numeric. rewrite Hkey. exact Hvalue.
        -- destruct IH as (before & k & after & -> & Hbefore & Hk & ->).
           exists (key :: before), k, after.
           split; [reflexivity|]. split; [|split; [exact Hk | reflexivity]].
           apply List.Forall_cons; [|exact Hbefore].
           unfold numeric. rewrite Hkey, Hvalue. eauto.
      * exists [], key, keys. rewrite Hkey.
        split; [reflexivity|]. split; [apply List.Forall_nil|].
        split; [exact Hvalue | reflexivity].
    + exists [], key, keys. rewrite Hkey.
      split; [reflexivity|]. split; [apply List.Forall_nil|].
      split; reflexivity.
Qed.

(** X7. [sum] adds the values of the keys from left to right, starting
    from 0, when every key is present with a value [strconv.ParseFloat]
    reads; otherwise it fails at the first key that is not, with the
    key-not-found error when that key is absent and with the error of
    [strconv.ParseFloat] when its value is rejected. *)
Theorem sum_spec s keys :
  match sum s keys with
  | Ok total =>
      exists values,
        Forall2 (fun key v => numeric s key = Some v) keys values /\
        total = fold_left PrimFloat.add values 0%float
  | Err err =>
      exists before key after,
        keys = before ++ key :: after /\
        Forall (fun key => is_Some (numeric s key)) before /\
        numeric s key = None /\
        err = match s !! key with
              | None => errKeyNotFound
              | Some value => NumError value
              end
  end.
Proof. apply sum_from_spec. Qed.

(** X8. Binding a present field with the boolean parser sends the metric
    with value 1 for "yes", with value 0 for "no", and for any other
    value (the comparison is exact) sends nothing and returns the boolean
    parse error. *)
Theorem parseBoolAndNewMetric_present desc valueType
    (stats : gmap string string) key value labelValues :
  stats !! key = Some value ->
  parseBoolAndNewMetric desc valueType stats key labelValues
  = if decide (value = "yes")
    then (None, [MustNewConstMetric desc valueType 1%float labelValues])
    else if decide (value = "no")
    then (None, [MustNewConstMetric desc valueType 0%float labelValues])
    else (Some errParseBool, []).
Proof.
  intros Hpresent.
  unfold parseBoolAndNewMetric, extractValueAndNewMetric, parseBool.
  rewrite Hpresent.
  destruct (decide (value = "yes")) as [->|Hyes]; [reflexivity|].
  apply String.eqb_neq in Hyes. rewrite Hyes.
  destruct (decide (value = "no")) as [->|Hno]; [reflexivity|].
  apply String.eqb_neq in Hno. rewrite Hno. reflexivity.
Qed.

(** ** The descriptors *)

(** X9. [New] gives the descriptors of different fields different fully
    qualified names, and [fields] lists every field. *)
Theorem New_desc_names_distinct :
  NoDup ((fun field => fqName (New_desc field)) <$> fields) /\
  forall field, field ∈ fields.
Proof.
  split.
  - apply (bool_decide_unpack _). vm_compute. reflexivity.
  - intros field. apply (bool_decide_unpack _). destruct field;
      vm_compute; reflexivity.
Qed.

(** ** The addresses of [New] *)

Lemma IndexByte_ge s c : (-1 <= IndexByte s c)%Z.
Proof.
  induction s as [|b rest IH]; cbn [IndexByte]; [lia|].
  destruct (Ascii.eqb b c); [lia|].
  destruct (Z.eqb_spec (IndexByte rest c) (-1)); lia.
Qed.

Lemma IndexByte_absent s c : IndexByte s c = (-1)%Z <-> count_sep s c = 0.
Proof.
  induction s as [|b rest IH]; cbn [IndexByte count_sep]; [done|].
  destruct (Ascii.eqb b c); [split; [lia | discriminate]|].
  pose proof (IndexByte_ge rest c).
  destruct (Z.eqb_spec (IndexByte rest c) (-1)) as [Heq|Hne].
  - split; [intros _; by apply IH | done].
  - split; [lia | intros H0; apply IH in H0; lia].
Qed.

Lemma Split_parts_without c s sep :
  count_sep s c = 0 -> Forall (fun part => count_sep part c = 0) (Split s sep).
Proof.
  induction s as [|b rest IH]; cbn [Split count_sep].
  - intros _. by repeat constructor.
  - intros H.
    assert (count_sep rest c = 0) as Hrest by lia.
    assert ((if Ascii.eqb b c then 1 else 0) = 0) as Hb by lia.
    specialize (IH Hrest).
    destruct (Ascii.eqb b sep).
    + by constructor.
    + destruct (Split rest sep) as [|part parts].
      * repeat constructor. cbn [count_sep]. lia.
      * inversion IH; subst. constructor; [|assumption].
        cbn [count_sep]. lia.
Qed.

Lemma Split_parts_no_sep s sep :
  Forall (fun part => count_sep part sep = 0) (Split s sep).
Proof.
  induction s as [|b rest IH]; cbn [Split].
  - by repeat constructor.
  - destruct (Ascii.eqb b sep) eqn:Hb; [by constructor|].
    destruct (Split rest sep) as [|part parts].
    + repeat constructor. cbn [count_sep]. rewrite Hb. reflexivity.
    + inversion IH; subst. constructor; [|assumption].
      cbn [count_sep]. rewrite Hb. assumption.
Qed.

Lemma New_loop_expand Glob parts addresses :
  New_loop Glob parts addresses
  = (fun found => addresses ++ concat found) <$> mapM (expand Glob) parts.
Proof.
  revert addresses.
  induction parts as [|address parts IH]; intros addresses;
    cbn [New_loop mapM].
  - cbn. rewrite app_nil_r. reflexivity.
  - destruct address as [|b rest].
    + cbn [String.length Nat.ltb Nat.leb expand]. rewrite IH. cbn.
      destruct (mapM (expand Glob) parts); reflexivity.
    + cbn [String.length expand].
      change (0 <? S (String.length rest)) with true. cbv iota.
      destruct (Ascii.eqb b "/" && negb (IndexByte (String b rest) "*" =? -1)%Z).
      * destruct (Glob (String b rest)) as [matches|]; [|reflexivity].
        rewrite IH. cbn.
        destruct (mapM (expand Glob) parts); cbn; [|reflexivity].
        rewrite app_assoc. reflexivity.
      * rewrite IH. cbn.
        destruct (mapM (expand Glob) parts); cbn; [|reflexivity].
        rewrite <- app_assoc. reflexivity.
Qed.

(** X10. [New] handles the comma-separated parts of the server string one
    by one and in order: an empty part gives no address, a part that starts
    with "/" and holds a "*" gives the matches of [filepath.Glob], any
    other part gives itself; [New] panics exactly when [filepath.Glob]
    fails on one of the parts it is asked about. *)
Theorem New_spec Glob server :
  New Glob server
  = match mapM (expand Glob) (Split server ",") with
    | Some found => Some (concat found)
    | None => None
    end.
Proof.
  unfold New. rewrite New_loop_expand.
  destruct (mapM (expand Glob) (Split server ",")); reflexivity.
Qed.

Lemma mapM_expand_plain Glob parts :
  Forall (fun part => count_sep part "*" = 0) parts ->
  mapM (expand Glob) parts
  = Some (map (fun part => if String.eqb part "" then [] else [part]) parts).
Proof.
  induction 1 as [|part parts Hpart _ IH]; [reflexivity|].
  cbn [mapM map]. rewrite IH.
  apply IndexByte_absent in Hpart.
  destruct part as [|b rest]; [reflexivity|].
  unfold expand. rewrite Hpart. cbn [Z.eqb negb].
  rewrite andb_false_r. reflexivity.
Qed.

Lemma concat_singletons (parts : list string) :
  concat (map (fun part => if String.eqb part "" then [] else [part]) parts)
  = List.filter (fun part => negb (String.eqb part "")) parts.
Proof.
  induction parts as [|part parts IH]; [reflexivity|].
  cbn [map concat List.filter]. rewrite IH.
  destruct (String.eqb part ""); reflexivity.
Qed.

(** X11. For a server string without any "*", [New] never consults
    [filepath.Glob] and does not panic: the addresses are the non-empty
    comma-separated parts, in order; none of them is empty or holds a
    comma.  In particular the empty string gives no address. *)
Theorem New_without_pattern Glob server :
  IndexByte server "*" = (-1)%Z ->
  New Glob server
  = Some (List.filter (fun part => negb (String.eqb part ""))
            (Split server ",")) /\
  Forall (fun address => address <> "" /\ IndexByte address "," = (-1)%Z)
    (List.filter (fun part => negb (String.eqb part "")) (Split server ",")).
Proof.
  intros Hstar. apply IndexByte_absent in Hstar. split.
  - unfold New. rewrite New_loop_expand.
    rewrite (mapM_expand_plain Glob _ (Split_parts_without "*" server "," Hstar)).
    cbn. rewrite concat_singletons. reflexivity.
  - pose proof (Split_parts_no_sep server ",") as Hparts.
    induction Hparts as [|part parts Hpart _ IH]; [constructor|].
    cbn [List.filter].
    destruct (String.eqb part "") eqn:Hempty; cbn [negb]; [exact IH|].
    constructor; [|exact IH].
    split; [by apply String.eqb_neq | by apply IndexByte_absent].
Qed.

(** ** Collect *)

Lemma concat_all_nil {A} (ls : list (list A)) :
  Forall (fun l => l = []) ls -> concat ls = [].
Proof. induction 1 as [|l ls -> _ IH]; [reflexivity | exact IH]. Qed.

Lemma interleaves_concat ls : interleaves ls (concat ls).
Proof.
  assert (forall l before after,
             Forall (fun l => l = []) before ->
             interleaves (before ++ after) (concat after) ->
             interleaves (before ++ l :: after) (l ++ concat after)) as Hone.
  { induction l as [|m l IH]; intros before after Hbefore Hafter.
    - cbn [app].
      replace (before ++ [] :: after) with ((before ++ [[]]) ++ after)
        by (rewrite <- app_assoc; reflexivity).
      revert Hafter. generalize (concat after). intros received Hafter.
      remember (before ++ after) as pending eqn:Hpending.
      revert before after Hbefore Hpending.
      induction Hafter as [pending Hnil | b m sends a received _ IH];
        intros before after Hbefore Hpending.
      + apply interleaves_done. subst pending.
        apply Forall_app in Hnil as [H1 H2].
        apply Forall_app. split; [|exact H2].
        apply Forall_app. split; [exact H1 | by repeat constructor].
      + assert (exists after', after = after' ++ (m :: sends) :: a /\
                               b = before ++ after') as (after' & -> & ->).
        { clear IH. revert b Hpending.
          induction Hbefore as [|x before -> _ IHb]; intros b Hpending.
          - exists b. by rewrite Hpending.
          - destruct b as [|y b]; [discriminate|].
            injection Hpending as <- Hpending.
            destruct (IHb _ Hpending) as (after' & -> & ->).
            by exists after'. }
        replace ((before ++ [[]]) ++ after' ++ (m :: sends) :: a)
          with (((before ++ [[]]) ++ after') ++ (m :: sends) :: a)
          by (rewrite <- !app_assoc; reflexivity).
        apply interleaves_send.
        replace (((before ++ [[]]) ++ after') ++ sends :: a)
          with ((before ++ [[]]) ++ after' ++ sends :: a)
          by (rewrite <- !app_assoc; reflexivity).
        apply IH; [exact Hbefore|].
        rewrite <- app_assoc. reflexivity.
    - cbn [app]. apply interleaves_send. by apply IH. }
  assert (forall before,
             Forall (fun l => l = []) before ->
             interleaves (before ++ ls) (concat ls)) as Hall.
  { induction ls as [|l ls IH]; intros before Hbefore.
    - rewrite app_nil_r. by apply interleaves_done.
    - cbn [concat]. apply Hone; [exact Hbefore|].
      replace (before ++ ls) with (before ++ ls) by reflexivity.
      apply IH, Hbefore. }
  apply (Hall []). constructor.
Qed.

Lemma interleaves_Permutation ls received :
  interleaves ls received -> received ≡ₚ concat ls.
Proof.
  induction 1 as [pending Hnil | before m sends after received _ IH].
  - by rewrite concat_all_nil.
  - rewrite concat_app in *. cbn [concat app] in *.
    rewrite <- Permutation_middle. by apply perm_skip.
Qed.

Lemma interleaves_filter p ls received :
  interleaves ls received ->
  interleaves (map (List.filter p) ls) (List.filter p received).
Proof.
  induction 1 as [pending Hnil | before m sends after received _ IH].
  - apply interleaves_done.
    induction Hnil as [|l ls -> _ IHnil]; by constructor.
  - rewrite map_app in *. cbn [map List.filter] in *.
    destruct (p m); [by apply interleaves_send | exact IH].
Qed.

Lemma interleaves_all_nil ls received :
  Forall (fun l => l = []) ls -> interleaves ls received -> received = [].
Proof.
  intros Hnil H. destruct H as [|before m sends after received _];
    [reflexivity|].
  apply Forall_app in Hnil as [_ Hnil]. by inversion Hnil.
Qed.

Lemma split_at_busy {A} (before pre : list (list A)) x l after post :
  Forall (fun l => l = []) pre -> Forall (fun l => l = []) post ->
  before ++ x :: after = pre ++ l :: post -> x <> [] ->
  before = pre /\ x = l /\ after = post.
Proof.
  intros Hpre Hpost. revert before.
  induction Hpre as [|p pre -> _ IH]; intros before Heq Hx.
  - destruct before as [|b before].
    + by injection Heq as -> ->.
    + injection Heq as -> Heq.
      assert (x ∈ post) as Hin
          by (rewrite <- Heq; apply elem_of_app; right;
              apply list_elem_of_here).
      rewrite Forall_forall in Hpost. by apply Hpost in Hin.
  - destruct before as [|b before].
    + by injection Heq as -> _.
    + injection Heq as -> Heq.
      destruct (IH _ Heq Hx) as (-> & -> & ->). done.
Qed.

Lemma interleaves_only pre l post received :
  Forall (fun l => l = []) pre -> Forall (fun l => l = []) post ->
  interleaves (pre ++ l :: post) received -> received = l.
Proof.
  intros Hpre Hpost H.
  remember (pre ++ l :: post) as pending eqn:Hpending.
  revert l Hpending.
  induction H as [pending Hnil | before m sends after received _ IH];
    intros l Hpending.
  - subst pending. apply Forall_app in Hnil as [_ Hnil]. by inversion Hnil.
  - destruct (split_at_busy _ _ _ _ _ _ Hpre Hpost Hpending)
      as (-> & <- & ->); [done|].
    f_equal. by apply IH.
Qed.

Lemma CollectServer_shape server :
  exists translated up,
    sent (CollectServer server)
    = translated ++ [MustNewConstMetric e.up GaugeValue up [server]] /\
    Forall (fun m => isUp m = false) translated.
Proof.
  unfold CollectServer.
  destruct (memcache_New server) as [c|err].
  - destruct (c_Stats c) as [stats err1],
      (c_StatsSettings c) as [settings err2].
    cbv zeta. rewrite !sent_bind. eexists (_ ++ _), _.
    rewrite <- app_assoc. split; [reflexivity|].
    apply Forall_app. split;
      [apply parseStats_no_up | apply parseStatsSettings_no_up].
  - exists [], 0%float. split; [reflexivity | constructor].
Qed.

Lemma CollectServer_one_up server :
  length (List.filter isUp (sent (CollectServer server))) = 1.
Proof.
  destruct (CollectServer_shape server) as (translated & up & -> & Hno).
  rewrite List.filter_app.
  pose proof (filter_sends_only isUp (tt, translated) Hno) as Hnil.
  unfold sent in Hnil. cbn [snd] in Hnil. rewrite Hnil. reflexivity.
Qed.

Lemma filter_fromServer_self server :
  List.filter (fromServer server) (sent (CollectServer server))
  = sent (CollectServer server).
Proof.
  pose proof (CollectServer_labels server) as H. unfold sends_only in H.
  induction H as [|m l [_ Hm] _ IH]; [reflexivity|].
  cbn [List.filter]. unfold fromServer at 1. rewrite Hm, String.eqb_refl.
  by rewrite IH.
Qed.

Lemma filter_fromServer_other server other :
  server <> other ->
  List.filter (fromServer server) (sent (CollectServer other)) = [].
Proof.
  intros Hne.
  pose proof (CollectServer_labels other) as H. unfold sends_only in H.
  induction H as [|m l [_ Hm] _ IH]; [reflexivity|].
  cbn [List.filter]. unfold fromServer at 1. rewrite Hm.
  assert (String.eqb other server = false) as ->
      by (apply String.eqb_neq; congruence).
  exact IH.
Qed.

(** X12. Whatever the interleaving of the goroutines, a cycle of
    [Collect] delivers exactly the metrics that [CollectServer] sends for
    each configured address (as many times as the address is configured),
    among them one up observation per address; with no address it
    delivers nothing. *)
Theorem Collect_delivers addresses received :
  Collect addresses received ->
  received ≡ₚ flat_map (fun server => sent (CollectServer server)) addresses /\
  length (List.filter isUp received) = length addresses.
Proof.
  intros H. apply interleaves_Permutation in H.
  rewrite <- flat_map_concat_map in H. split; [exact H|].
  assert (forall l l' : list Metric,
             l ≡ₚ l' ->
             length (List.filter isUp l) = length (List.filter isUp l'))
    as Hperm.
  { induction 1 as [|x l l' _ IH|x y l|l1 l2 l3 _ IH1 _ IH2];
      cbn [List.filter];
      [ reflexivity
      | destruct (isUp x); cbn [length]; congruence
      | destruct (isUp x), (isUp y); reflexivity
      | congruence ]. }
  rewrite (Hperm _ _ H). clear.
  induction addresses as [|server addresses IH]; [reflexivity|].
  cbn [flat_map]. rewrite List.filter_app, length_app, IH.
  rewrite CollectServer_one_up. reflexivity.
Qed.

(** X13. When the configured addresses are distinct, the metrics bearing
    a given server label reach the channel exactly as [CollectServer] sent
    them for that address, in that order, whatever the other goroutines
    send and whether or not they fail; for a label that is no configured
    address nothing is delivered. *)
Theorem Collect_per_server addresses received server :
  NoDup addresses ->
  Collect addresses received ->
  List.filter (fromServer server) received
  = if decide (server ∈ addresses) then sent (CollectServer server) else [].
Proof.
  intros Hnodup H. apply (interleaves_filter (fromServer server)) in H.
  assert (forall others,
             server ∉ others ->
             Forall (fun l => l = [])
               (map (List.filter (fromServer server))
                  (map (fun a => sent (CollectServer a)) others)))
    as Hothers.
  { induction others as [|other others IH]; intros Hnotin; [constructor|].
    cbn [map]. constructor.
    - apply filter_fromServer_other. intros ->. apply Hnotin. by left.
    - apply IH. intros Hin. apply Hnotin. by right. }
  destruct (decide (server ∈ addresses)) as [Hin|Hnotin].
  - apply list_elem_of_split in Hin as (pre & post & ->).
    apply NoDup_app in Hnodup as (_ & Hpre & Hpost).
    apply NoDup_cons in Hpost as [Hpost _].
    rewrite !map_app in H. cbn [map] in H.
    rewrite filter_fromServer_self in H.
    apply (interleaves_only _ _ _ _
             (Hothers pre ltac:(intros Hin; apply (Hpre _ Hin); by left))
             (Hothers post Hpost) H).
  - by apply (interleaves_all_nil _ _ (Hothers addresses Hnotin)).
Qed.

(** ** The item tables *)








(** X15. Every metric sent for an item record or a slab record of a slab
    class carries that class, in decimal, as its slab label, besides the
    server label. *)
Theorem slab_label server parseError slab (record : gmap string string) :
  Forall (fun m => label m "slab" = Some (Itoa slab) /\
                   label m "server" = Some server)
    (sent (parseStats_items server parseError (slab, record))) /\
  Forall (fun m => label m "slab" = Some (Itoa slab) /\
                   label m "server" = Some server)
    (sent (parseStats_slabs server parseError (slab, record))).
Proof.
  split; autounfold with translators; cbv beta zeta;
    sends_only_walk; split; reflexivity.
Qed.

End Exporter.

(** * The properties at concrete records *)

Lemma absent_key_is_noop_witness :
  parseAndNewMetric Sample.ParseFloat e.uptime CounterValue
    Sample.settings "uptime" ["srv"] = (None, []) /\
  parseBoolAndNewMetric e.uptime CounterValue
    Sample.settings "uptime" ["srv"] = (None, []) /\
  parseTimevalAndNewMetric Sample.ParseFloat e.uptime CounterValue
    Sample.settings "uptime" ["srv"] = (None, []).
Proof.
  apply (absent_key_is_noop Sample.ParseFloat e.uptime CounterValue
           Sample.settings "uptime" ["srv"]).
  vm_compute. reflexivity.
Defined.

(** "12.345678" is 12 seconds and 345678 microseconds; "1.2.3" is
    rejected. *)
Lemma parseTimeval_spec_witness :
  parseTimeval Sample.ParseFloat Sample.rusage "rusage_user"
  = Ok (12 + 345678 / 1000000)%float /\
  parseTimeval Sample.ParseFloat Sample.rusage "rusage_system"
  = Err errParseTimeval.
Proof.
  split.
  - refine (proj1 (parseTimeval_spec Sample.ParseFloat Sample.rusage
                     "rusage_user" "12.345678" _) "12" "345678" 12%float
                     345678%float _ _ _ _ _);
      vm_compute; reflexivity.
  - refine (proj1 (proj2 (parseTimeval_spec Sample.ParseFloat Sample.rusage
                            "rusage_system" "1.2.3" _) (or_introl _)));
      vm_compute; [reflexivity | discriminate].
Defined.

(** The example of the specification: 120 - (3 + 2 + 1) = 114. *)
Lemma derived_set_spec_witness :
  List.filter isSet
    (sent (parseStats_entry Sample.ParseFloat "srv" None Sample.entry))
  = [MustNewConstMetric e.commands CounterValue 114%float
       ["set"; "hit"; "srv"]].
Proof.
  refine (proj1 (derived_set_spec Sample.ParseFloat "srv" None Sample.entry)
            120%float 3%float 2%float 1%float _ _ _ _);
    vm_compute; reflexivity.
Defined.

Lemma slab_set_spec_witness :
  List.filter isSlabSet
    (sent (parseStats_slabs Sample.ParseFloat "srv" None (1%Z, Sample.slab)))
  = [MustNewConstMetric e.slabsCommands CounterValue 8%float
       ["1"; "set"; "hit"; "srv"]].
Proof.
  refine (slab_set_spec Sample.ParseFloat "srv" None 1%Z Sample.slab
            10%float 1%float 1%float _ _ _);
    vm_compute; reflexivity.
Defined.

(** C3 fails on the code: on a slab record with cmd_set 10, cas_hits 1,
    cas_misses 5 and cas_badval 1 the slab-level counter is 8, while the
    server-level derivation gives 3 on the same record. *)
Lemma slab_set_ignores_cas_misses :
  List.filter isSlabSet
    (sent (parseStats_slabs Sample.ParseFloat "srv" None (1%Z, Sample.slab)))
  = [MustNewConstMetric e.slabsCommands CounterValue 8%float
       ["1"; "set"; "hit"; "srv"]] /\
  sent (parseStats_set Sample.ParseFloat "srv" Sample.slab None)
  = [MustNewConstMetric e.commands CounterValue 3%float
       ["set"; "hit"; "srv"]] /\
  List.filter isSlabSet
    (sent (parseStats_slabs Sample.ParseFloat "srv" None (1%Z, Sample.slab)))
  <> [MustNewConstMetric e.slabsCommands CounterValue (10 - (1 + 5 + 1))%float
        ["1"; "set"; "hit"; "srv"]].
Proof.
  split; [vm_compute; reflexivity|]. split; [vm_compute; reflexivity|].
  intros H.
  apply (f_equal (fun l => match l with
                           | [m] => (value m =? 3)%float
                           | _ => true
                           end)) in H.
  vm_compute in H. discriminate H.
Qed.



(** C1 fails on the code: [memcache.New] succeeds and both translators
    return nil, yet the up observation is 0 because the stats fetch failed;
    and although a fetch failed, the maxconns gauge of the settings is sent
    besides the up observation. *)
Lemma CollectServer_fetch_failure :
  returned (parseStats Sample.ParseFloat (c_Stats Sample.half_client).1 "srv")
  = None /\
  returned (parseStatsSettings Sample.ParseFloat
              (c_StatsSettings Sample.half_client).1 "srv") = None /\
  sent (CollectServer Sample.ParseFloat
          (fun _ => inl Sample.half_client) "srv")
  = [MustNewConstMetric e.maxConnections GaugeValue 1024%float ["srv"];
     MustNewConstMetric e.up GaugeValue 0%float ["srv"]].
Proof. vm_compute. repeat split. Qed.

(** Other extstore fields are present, the maxbytes key is not. *)
Lemma extstore_gate_witness :
  List.filter isExtstore
    (sent (parseStats_entry Sample.ParseFloat "srv" None Sample.offload_entry))
  = [].
Proof.
  refine (proj1 (extstore_gate Sample.ParseFloat "srv" None
                   Sample.offload_entry) _).
  vm_compute. reflexivity.
Defined.

(** C8 fails on the code: a record without the version field still gets
    a version observation, labelled with the empty string. *)
Lemma version_without_field :
  Stats_ Sample.entry.2 !! "version" = None /\
  List.filter isVersion
    (sent (parseStats_entry Sample.ParseFloat "srv" None Sample.entry))
  = [MustNewConstMetric e.version GaugeValue 1%float [""; "srv"]].
Proof. vm_compute. repeat split. Qed.

(** lru_crawler is "no": only maxconns is bound, although
    lru_crawler_sleep is there. *)
Lemma crawler_gate_witness :
  parseStatsSettings_entry Sample.ParseFloat "srv" None
    ("10.0.0.1:11211", Sample.settings)
  = (None, [MustNewConstMetric e.maxConnections GaugeValue 1024%float ["srv"]]).
Proof.
  refine (eq_trans
            (proj1 (proj2 (crawler_gate Sample.ParseFloat "srv" None
                             ("10.0.0.1:11211", Sample.settings))) _) _).
  - vm_compute. discriminate.
  - vm_compute. reflexivity.
Defined.

(** * The further properties at concrete inputs *)

(** The settings record has lru_crawler "no". *)
Lemma parseBoolAndNewMetric_present_witness :
  parseBoolAndNewMetric e.lruCrawlerEnabled GaugeValue Sample.settings
    "lru_crawler" ["srv"]
  = (None, [MustNewConstMetric e.lruCrawlerEnabled GaugeValue 0%float ["srv"]]).
Proof.
  refine (eq_trans
            (parseBoolAndNewMetric_present e.lruCrawlerEnabled GaugeValue
               Sample.settings "lru_crawler" "no" ["srv"] _) _);
    vm_compute; reflexivity.
Defined.

(** Two addresses and an empty part between them. *)
Lemma New_without_pattern_witness :
  New (fun _ => None) "10.0.0.1:11211,,/var/run/memcached.sock"
  = Some ["10.0.0.1:11211"; "/var/run/memcached.sock"].
Proof.
  refine (eq_trans
            (proj1 (New_without_pattern (fun _ => None)
                      "10.0.0.1:11211,,/var/run/memcached.sock" _)) _);
    vm_compute; reflexivity.
Defined.

(** Two servers that cannot be reached, the second goroutine sending
    first. *)
Lemma Collect_refused :
  Collect Sample.ParseFloat (fun _ => inr (errTransport "refused"))
    ["a"; "b"]
    [MustNewConstMetric e.up GaugeValue 0%float ["b"];
     MustNewConstMetric e.up GaugeValue 0%float ["a"]].
Proof.
  unfold Collect. cbn [map].
  change (sent (CollectServer Sample.ParseFloat _ "a"))
    with [MustNewConstMetric e.up GaugeValue 0%float ["a"]].
  change (sent (CollectServer Sample.ParseFloat _ "b"))
    with [MustNewConstMetric e.up GaugeValue 0%float ["b"]].
  apply (interleaves_send [[_]] _ [] []).
  apply (interleaves_send [] _ [] [[]]).
  apply interleaves_done. by repeat constructor.
Qed.

Lemma Collect_delivers_witness :
  length
    (List.filter isUp
       [MustNewConstMetric e.up GaugeValue 0%float ["b"];
        MustNewConstMetric e.up GaugeValue 0%float ["a"]])
  = 2.
Proof.
  exact (proj2 (Collect_delivers Sample.ParseFloat
                  (fun _ => inr (errTransport "refused")) ["a"; "b"] _
                  Collect_refused)).
Defined.

Lemma Collect_per_server_witness :
  List.filter (fromServer "a")
    [MustNewConstMetric e.up GaugeValue 0%float ["b"];
     MustNewConstMetric e.up GaugeValue 0%float ["a"]]
  = [MustNewConstMetric e.up GaugeValue 0%float ["a"]].
Proof.
  refine (eq_trans
            (Collect_per_server Sample.ParseFloat
               (fun _ => inr (errTransport "refused")) ["a"; "b"] _ "a"
               _ Collect_refused) _).
  - apply (bool_decide_unpack _). vm_compute. reflexivity.
  - vm_compute. reflexivity.
Defined.

